(** * roycemorebot: configuration resolution and process lifecycle

    A shallow embedding of [roycemorebot/constants.py] and
    [roycemorebot/__main__.py].  Python values that come out of the
    configuration file are JSON values, dictionaries are finite maps,
    exceptions are an inductive type, and every effect the two modules
    have on the outside (log records, messages sent to the invoking
    channel, extension registry, storage and platform connections) is
    recorded in an explicit state threaded through a small
    state-and-exception monad. *)

From Stdlib Require Import ZArith String Ascii List QArith Lia.
From stdpp Require Import base option gmap strings pretty.
Import ListNotations.

#[local] Set Warnings "-register-all".
#[local] Open Scope string_scope.

(* ===================================================================== *)
(** * Python strings *)
(* ===================================================================== *)

Module Str.

(** [str.lower] and [str.upper] on the ASCII range; bytes outside
    [A-Za-z] are left alone. *)
Definition lower_ascii (a : ascii) : ascii :=
  let n := nat_of_ascii a in
  if (65 <=? n)%nat && (n <=? 90)%nat then ascii_of_nat (n + 32) else a.

Definition upper_ascii (a : ascii) : ascii :=
  let n := nat_of_ascii a in
  if (97 <=? n)%nat && (n <=? 122)%nat then ascii_of_nat (n - 32) else a.

Fixpoint lower (s : string) : string :=
  match s with
  | EmptyString => EmptyString
  | String a t => String (lower_ascii a) (lower t)
  end.

Fixpoint upper (s : string) : string :=
  match s with
  | EmptyString => EmptyString
  | String a t => String (upper_ascii a) (upper t)
  end.

(** [s.startswith(p)] *)
Definition startswith (p s : string) : bool := String.prefix p s.

(** [s.endswith(p)] *)
Definition endswith (p s : string) : bool :=
  let n := String.length s in
  let k := String.length p in
  (k <=? n)%nat && String.eqb (String.substring (n - k) k s) p.

(** [s[:-k]]: everything but the last [k] characters, the empty string
    when [s] is shorter than [k]. *)
Definition drop_last (k : nat) (s : string) : string :=
  String.substring 0 (String.length s - k) s.

(** [p in s] for two strings. *)
Fixpoint contains (p s : string) : bool :=
  String.prefix p s ||
  match s with
  | EmptyString => false
  | String _ t => contains p t
  end.

(** [sep.join(parts)] *)
Fixpoint join (sep : string) (parts : list string) : string :=
  match parts with
  | [] => ""
  | [x] => x
  | x :: rest => x +:+ sep +:+ join sep rest
  end.

(** Truthiness of a string: non-empty. *)
Definition truthy (s : string) : bool :=
  match s with EmptyString => false | _ => true end.

End Str.

(* ===================================================================== *)
(** * JSON documents, exceptions, effects *)
(* ===================================================================== *)

(** What [json.load] returns.  Objects are Python [dict]s keyed by
    strings.  Floats are kept as their literal: the code never computes
    with them. *)
Inductive json : Type :=
| JNull
| JBool (b : bool)
| JInt (z : Z)
| JFloat (literal : string)
| JStr (s : string)
| JArr (items : list json)
| JObj (members : gmap string json).

(** The exceptions the two modules can meet. *)
Inductive exn : Type :=
| KeyError (key : string)
| TypeError
| AttributeError (attr : string)
| OSError (errno : Z) (strerror : string) (filename : option string)
| JSONDecodeError
| ConfigurationError (msg : string)
| SystemExit
| ImportError (name : string)
| TimeoutExpired (cmd : list string) (timeout : Z) (stderr : option string)
| CalledProcessError (cmd : list string) (returncode : Z) (stderr : option string)
| ExtensionNotLoaded (name : string)
| ExtensionAlreadyLoaded (name : string)
| ExtensionNotFound (name : string)
| NoEntryPointError (name : string)
| ExtensionFailed (name : string) (original : exn)
| GatewayError (what : string)
| UnicodeDecodeError.

Inductive level : Type := TRACE | INFO | WARNING | ERROR | CRITICAL.

(** Everything observable from outside, in the order it happens. *)
Inductive event : Type :=
| Log (lv : level) (msg : string)
| Send (msg : string)
| DbInit
| PlatformClosed
| StorageClosed
| AsyncgensShutdown
| Sleep (seconds : Z)
| Run (token : json).

(** The mutable part of the process: the extensions the bot has loaded
    (each with the cogs its [setup] registered), the cogs registered
    with the bot, and the trace of events. *)
Record state : Type := mkState {
  exts : gmap string (list string);
  cogs : list string;
  trace : list event
}.

Inductive outcome (A : Type) : Type :=
| Returned (a : A)
| Raised (e : exn).
Arguments Returned {A} a.
Arguments Raised {A} e.

(** A computation runs from a state and either returns or raises; the
    state it leaves behind is kept in both cases. *)
Definition M (A : Type) : Type := state -> state * outcome A.

#[export] Instance M_ret : MRet M := fun A a st => (st, Returned a).

#[export] Instance M_bind : MBind M := fun A B k c st =>
  match c st with
  | (st', Returned a) => k a st'
  | (st', Raised e) => (st', Raised e)
  end.

Definition raise {A : Type} (e : exn) : M A := fun st => (st, Raised e).

Definition emit (ev : event) : M unit :=
  fun st => (mkState (exts st) (cogs st) (trace st ++ [ev]), Returned tt).
(** Reading and writing the registry part of the state. *)
Definition loaded_extensions : M (gmap string (list string)) :=
  fun st => (st, Returned (exts st)).

Definition update (f : state -> state) : M unit :=
  fun st => (f st, Returned tt).

(** [try: body / except <handler>: ... / else: orelse].  The handler
    answers [None] for an exception no [except] clause matches, which
    then propagates; exceptions of the handler and of the [else] block
    are not caught. *)
Definition try_except_else {A B : Type}
    (body : M A) (handler : exn -> option (M B)) (orelse : A -> M B) : M B :=
  fun st =>
    match body st with
    | (st', Returned a) => orelse a st'
    | (st', Raised e) =>
        match handler e with
        | Some h => h st'
        | None => (st', Raised e)
        end
    end.

Definition try_except {A : Type} (body : M A) (handler : exn -> option (M A)) : M A :=
  try_except_else body handler mret.

(** [d[k]] on a value coming from the configuration document: a missing
    key of a dictionary is a [KeyError] carrying that key; a string key
    applied to anything that is not a dictionary is a [TypeError]. *)
Definition subscript (d : json) (k : string) : M json :=
  match d with
  | JObj m =>
      match m !! k with
      | Some v => mret v
      | None => raise (KeyError k)
      end
  | _ => raise TypeError
  end.

(** [os.environ[k]] *)
Definition environ_getitem (environ : gmap string string) (k : string) : M json :=
  match environ !! k with
  | Some v => mret (JStr v)
  | None => raise (KeyError k)
  end.

(** [item == "!ENV"]: only a string can equal a string. *)
Definition eq_str (item : json) (s : string) : bool :=
  match item with
  | JStr t => bool_decide (t = s)
  | _ => false
  end.

Definition is_not_None (v : json) : bool :=
  match v with
  | JNull => false
  | _ => true
  end.

(* ===================================================================== *)
(** * roycemorebot/constants.py *)
(* ===================================================================== *)

Module constants.

(** ** Loading the document *)

(** A directory entry, as far as [Path.exists], [open] and [json.load]
    can tell: a regular file is represented by what [json.load] makes
    of its contents, [None] when they do not parse. *)
Inductive node : Type :=
| File (parsed : option json)
| Unreadable
| Directory.

Definition exists_ (fs : gmap string node) (path : string) : bool :=
  bool_decide (is_Some (fs !! path)).

(** [with open(path, "r") as f: json.load(f)] *)
Definition open_and_load (fs : gmap string node) (path : string) : M json :=
  match fs !! path with
  | None => raise (OSError 2 "No such file or directory" (Some path))
  | Some Directory => raise (OSError 21 "Is a directory" (Some path))
  | Some Unreadable => raise (OSError 13 "Permission denied" (Some path))
  | Some (File None) => raise JSONDecodeError
  | Some (File (Some doc)) => mret doc
  end.

(** Lines 8-14: the value bound to [_CONFIG_JSON]. *)
Definition load_CONFIG_JSON (fs : gmap string node) : M json :=
  if exists_ fs "config.json" then
    emit (Log INFO "Found `config.json`, loading constants from it.");;
    open_and_load fs "config.json"
  else
    open_and_load fs "config-default.json".

(** ** The [JSONGetter] metaclass *)

(** A class whose metaclass is [JSONGetter]: its [section], its
    [subsection] ([None] is the metaclass default) and the names it
    annotates. *)
Record config_class : Type := mkClass {
  cls_name : string;
  section : string;
  subsection : option string;
  annotations : list string
}.

Section JSONGetter.
Variable CONFIG_JSON : json.
Variable environ : gmap string string.

Definition dotted_path (cls : config_class) (name : string) : string :=
  Str.join "."
    (match subsection cls with
     | Some sub => [section cls; sub; name]
     | None => [section cls; name]
     end).

Definition not_found_message (path : string) : string :=
  "Tried accessing configuration variable at `" +:+ path +:+
  "`, but it could not be found.".

(** [JSONGetter.__getattr__] *)
Definition __getattr__ (cls : config_class) (name : string) : M json :=
  let name := Str.lower name in
  try_except
    (match subsection cls with
     | Some sub =>
         sec ← subscript CONFIG_JSON (section cls);
         subsec ← subscript sec sub;
         item ← subscript subsec name;
         if eq_str item "!ENV"
         then environ_getitem environ (Str.upper name)
         else mret item
     | None =>
         sec ← subscript CONFIG_JSON (section cls);
         item ← subscript sec name;
         if eq_str item "!ENV"
         then environ_getitem environ (Str.upper name)
         else mret item
     end)
    (fun e =>
       match e with
       | KeyError _ =>
           Some (emit (Log CRITICAL (not_found_message (dotted_path cls name)));;
                 raise e)
       | _ => None
       end).

(** [JSONGetter.__getitem__] *)
Definition __getitem__ (cls : config_class) (name : string) : M json :=
  __getattr__ cls name.

End JSONGetter.

(** ** Attribute access on a constants class

    [Cls.name] first goes through the ordinary lookup of
    [type.__getattribute__]; [__getattr__] is the fallback for names
    that lookup does not find.  The class body binds [section] (and
    [subsection], which the metaclass otherwise provides as [None]);
    annotations bind nothing.  What [type] and [object] contribute
    ([__name__], [mro], ...) is the parameter [inherited]. *)
Inductive pyobj : Type :=
| Value (j : json)
| Builtin (what : string).

Definition class_lookup (inherited : string -> option pyobj)
    (cls : config_class) (name : string) : option pyobj :=
  if bool_decide (name = "section") then Some (Value (JStr (section cls)))
  else if bool_decide (name = "subsection") then
    Some (Value (match subsection cls with Some sub => JStr sub | None => JNull end))
  else inherited name.

Definition as_pyobj (c : M json) : M pyobj :=
  fun st =>
    match c st with
    | (st', Returned j) => (st', Returned (Value j))
    | (st', Raised e) => (st', Raised e)
    end.

(** [Cls.name], that is [getattr(Cls, name)] *)
Definition attribute (inherited : string -> option pyobj)
    (CONFIG_JSON : json) (environ : gmap string string)
    (cls : config_class) (name : string) : M pyobj :=
  match class_lookup inherited cls name with
  | Some v => mret v
  | None => as_pyobj (__getattr__ CONFIG_JSON environ cls name)
  end.

(** [Cls[name]] *)
Definition item (CONFIG_JSON : json) (environ : gmap string string)
    (cls : config_class) (name : string) : M pyobj :=
  as_pyobj (__getitem__ CONFIG_JSON environ cls name).

(** [JSONGetter.__iter__], the generator consumed to its end: one pair
    per annotated name, in the order of the annotations, the value being
    [getattr(cls, name)]; the first access that raises ends the
    iteration with its exception. *)
Fixpoint iter_names (inherited : string -> option pyobj)
    (CONFIG_JSON : json) (environ : gmap string string)
    (cls : config_class) (names : list string) : M (list (string * pyobj)) :=
  match names with
  | [] => mret []
  | name :: rest =>
      v ← attribute inherited CONFIG_JSON environ cls name;
      pairs ← iter_names inherited CONFIG_JSON environ cls rest;
      mret ((name, v) :: pairs)
  end.

Definition __iter__ (inherited : string -> option pyobj)
    (CONFIG_JSON : json) (environ : gmap string string)
    (cls : config_class) : M (list (string * pyobj)) :=
  iter_names inherited CONFIG_JSON environ cls (annotations cls).

(** ** Environment constants *)

(** Line 87: [True if os.environ["DEBUG"] is not None else False] *)
Definition DEBUG_MODE (environ : gmap string string) : M bool :=
  v ← environ_getitem environ "DEBUG";
  mret (if is_not_None v then true else false).

(** ** JSON constants *)

Definition Bot : config_class :=
  mkClass "Bot" "bot" None ["prefix"; "bot_token"].
Definition Guild : config_class :=
  mkClass "Guild" "guild" None ["guild_id"].
Definition StaffRoles : config_class :=
  mkClass "StaffRoles" "guild" (Some "staff_roles")
    ["admin_role"; "mod_role"; "bot_team_role"].
Definition ClassRoles : config_class :=
  mkClass "ClassRoles" "guild" (Some "class_roles")
    ["freshmen"; "sophomores"; "juniors"; "seniors"; "alumni"].
Definition Channels : config_class :=
  mkClass "Channels" "guild" (Some "channels")
    ["roycemorebot_commands"; "bot_log"; "mod_bot_commands"].
Definition Categories : config_class :=
  mkClass "Categories" "guild" (Some "categories") ["clubs"].
Definition Emoji : config_class :=
  mkClass "Emoji" "style" (Some "emoji") ["ok"; "warning"; "no"; "green_check"].

(** The names a [from roycemorebot.constants import ...] can ask for. *)
Definition exported : list string :=
  ["json"; "logging"; "os"; "Path"; "log"; "f"; "_CONFIG_JSON"; "JSONGetter";
   "DEBUG_MODE"; "Bot"; "Guild"; "StaffRoles"; "ClassRoles"; "Channels";
   "Categories"; "Emoji"; "BOT_ADMINS"; "MOD_ROLES"; "CLASS_ROLES"].

(** ** The module as a whole *)

Record module : Type := mkModule {
  CONFIG_JSON : json;
  debug_mode : bool;
  BOT_ADMINS : list json;
  MOD_ROLES : list json;
  CLASS_ROLES : list json
}.

(** Executing the module: the document is loaded, [DEBUG_MODE] and the
    three groups are evaluated, in this order.  None of the names read
    here is bound in a class body, so each access is [__getattr__]. *)
Definition import (fs : gmap string node) (environ : gmap string string) : M module :=
  doc ← load_CONFIG_JSON fs;
  debug ← DEBUG_MODE environ;
  let get := __getattr__ doc environ in
  bot_team ← get StaffRoles "bot_team_role";
  admin ← get StaffRoles "admin_role";
  mod_ ← get StaffRoles "mod_role";
  admin' ← get StaffRoles "admin_role";
  freshmen ← get ClassRoles "freshmen";
  sophomores ← get ClassRoles "sophomores";
  juniors ← get ClassRoles "juniors";
  seniors ← get ClassRoles "seniors";
  alumni ← get ClassRoles "alumni";
  mret (mkModule doc debug [bot_team; admin] [mod_; admin']
          [freshmen; sophomores; juniors; seniors; alumni]).

End constants.

(* ===================================================================== *)
(** * roycemorebot/exts/status.py *)
(* ===================================================================== *)

Module status.

(** [from roycemorebot.constants import ...]: the first requested name
    the module does not bind is an [ImportError]. *)
Fixpoint import_from (bound names : list string) : option exn :=
  match names with
  | [] => None
  | n :: rest =>
      if bool_decide (n ∈ bound) then import_from bound rest
      else Some (ImportError n)
  end.

(** Line 9. *)
Definition imported : list string := ["Channels"; "Emoji"; "Roles"].

(** What loading the extension comes to: the import at the top of the
    module has to succeed before [setup] can add the [Status] cog. *)
Definition load : exn + list string :=
  match import_from constants.exported imported with
  | Some e => inl (ExtensionFailed "roycemorebot.exts.status" e)
  | None => inr ["Status"]
  end.

(** ** The [ping] command, lines 23-42 *)

(** A Python [float]: the latencies are floats, and the latency of the
    gateway is infinite or not a number while no heartbeat has been
    acknowledged. *)
Inductive float : Type :=
| Finite (q : Q)
| PosInf
| NegInf
| NaN.

(** [x <= bound] for a float [x] and an integer literal. *)
Definition float_le (x : float) (bound : Z) : bool :=
  match x with
  | Finite q => Qle_bool q (inject_Z bound)
  | NegInf => true
  | PosInf | NaN => false
  end.

Inductive colour : Type := green | orange | red.

Record embed : Type := mkEmbed {
  title : string;
  embed_colour : colour;
  fields : list (string * string * bool)
}.

(** The embed [ping] sends, from the two latencies in milliseconds
    ([raw_bot_latency] and [raw_api_latency]); [fixed3] is the
    formatting [f"{x:.3f}"] of a float. *)
Definition ping (fixed3 : float -> string) (raw_bot_latency raw_api_latency : float) : embed :=
  let bot_latency := fixed3 raw_bot_latency +:+ " ms" in
  let api_latency := fixed3 raw_api_latency +:+ " ms" in
  let colour :=
    if float_le raw_bot_latency 100 && float_le raw_api_latency 100 then green
    else if float_le raw_bot_latency 250 && float_le raw_api_latency 250 then orange
    else red in
  mkEmbed "Pong!" colour
    [("Bot latency:", bot_latency, false);
     ("Discord API Latency:", api_latency, false)].

End status.

(* ===================================================================== *)
(** * roycemorebot/__main__.py *)
(* ===================================================================== *)

Module main.

(** ** The bot and its extension registry *)

(** [init_db]: the storage layer either comes up or raises. *)
Definition init_db (db : option exn) : M unit :=
  match db with
  | None => emit DbInit
  | Some e => raise e
  end.

Definition repr_str (s : string) : string := "'" +:+ s +:+ "'".

Definition repr_list (l : list string) : string :=
  "[" +:+ Str.join ", " (repr_str <$> l) +:+ "]".

(** [str(e)] for the exceptions the two [except ... as e] clauses
    format.  [signal_repr] renders the signal that killed a child
    process.  Exceptions no handler formats get the empty text. *)
Definition str_exn (signal_repr : Z -> string) (e : exn) : string :=
  match e with
  | TimeoutExpired cmd timeout _ =>
      "Command '" +:+ repr_list cmd +:+ "' timed out after " +:+
      pretty timeout +:+ " seconds"
  | CalledProcessError cmd returncode _ =>
      if (returncode <? 0)%Z then
        "Command '" +:+ repr_list cmd +:+ "' died with " +:+
        signal_repr (- returncode)%Z +:+ "."
      else
        "Command '" +:+ repr_list cmd +:+ "' returned non-zero exit status " +:+
        pretty returncode +:+ "."
  | OSError errno strerror filename =>
      "[Errno " +:+ pretty errno +:+ "] " +:+ strerror +:+
      match filename with
      | Some f => ": " +:+ repr_str f
      | None => ""
      end
  | ConfigurationError msg => msg
  | _ => ""
  end.

(** [Bot.__init__], lines 47-56. *)
Definition Bot_init (signal_repr : Z -> string) (db : option exn) : M unit :=
  try_except (init_db db)
    (fun e =>
       match e with
       | OSError _ _ _ | ConfigurationError _ =>
           Some (emit (Log ERROR ("Error initialing database: " +:+ str_exn signal_repr e));;
                 raise SystemExit)
       | _ => None
       end).

(** [Bot.add_cog], lines 58-61. *)
Definition add_cog (cog : string) : M unit :=
  update (fun st => mkState (exts st) (cogs st ++ [cog]) (trace st));;
  emit (Log INFO ("Cog loaded: " +:+ cog)).

(** [Bot.remove_cog], lines 63-66. *)
Definition remove_cog (name : string) : M unit :=
  update (fun st => mkState (exts st) (filter (λ c, c ≠ name) (cogs st)) (trace st));;
  emit (Log INFO ("Cog unloaded: " +:+ name)).

Fixpoint for_each {A : Type} (l : list A) (body : A -> M unit) : M unit :=
  match l with
  | [] => mret tt
  | x :: rest => body x;; for_each rest body
  end.

Section Registry.

(** What importing and setting up the extension of a given qualified
    name comes to: an error, or the cogs its [setup] adds. *)
Variable modules : string -> exn + list string.

(** Modelled from the spec: [load], [unload] and [reload] of the extension
    registry, which the bot inherits from its command framework.  [load]
    moves an extension from Unloaded to Loaded and registers its
    handlers; it fails, leaving the extension Unloaded, when the unit
    cannot be found or its initialization fails. Loading what is already
    loaded fails explicitly. *)
Definition load_extension (name : string) : M unit :=
  loaded ← loaded_extensions;
  match loaded !! name with
  | Some _ => raise (ExtensionAlreadyLoaded name)
  | None =>
      match modules name with
      | inl e => raise e
      | inr new =>
          for_each new add_cog;;
          update (fun st => mkState (<[name := new]> (exts st)) (cogs st) (trace st))
      end
  end.

(** Modelled from the spec: [unload] moves a Loaded extension to Unloaded,
    deregistering its handlers, and fails with [ExtensionNotLoaded] if
    it is Unloaded. *)
Definition unload_extension (name : string) : M unit :=
  loaded ← loaded_extensions;
  match loaded !! name with
  | None => raise (ExtensionNotLoaded name)
  | Some old =>
      for_each old remove_cog;;
      update (fun st => mkState (delete name (exts st)) (cogs st) (trace st))
  end.

(** Modelled from the spec: [reload] is unload-then-load; if the load
    fails after the unload the extension is left Unloaded and the error
    goes to the caller. *)
Definition reload_extension (name : string) : M unit :=
  unload_extension name;; load_extension name.

(** ** Loading the cogs, lines 114-116 *)

Definition is_cog_file (file : string) : bool :=
  Str.endswith ".py" file && negb (Str.startswith "_" file).

Definition load_cogs (listdir : list string) : M unit :=
  for_each listdir (fun file =>
    if is_cog_file file
    then load_extension ("roycemorebot.exts." +:+ Str.drop_last 3 file)
    else mret tt).

(** ** The [reload] command, lines 126-135 *)

(** The body of the command; the role check of its decorator runs
    before the body and is the command framework's. *)
Definition reload (cog : string) : M unit :=
  try_except_else
    (if Str.contains "roycemorebot" cog
     then reload_extension cog
     else reload_extension ("roycemorebot.exts." +:+ cog))
    (fun e =>
       match e with
       | ExtensionNotLoaded _ =>
           Some (emit (Send ("Could not find the extension `" +:+ cog +:+ "`!")))
       | _ => None
       end)
    (fun _ => emit (Send ("Cog `" +:+ cog +:+ "` successfully reloaded!"))).

End Registry.

(** ** [Bot.close], lines 68-78 *)

(** [super().close()] and [Tortoise.close_connections()]: each either
    completes or raises. *)
Definition super_close (platform : option exn) : M unit :=
  match platform with
  | None => emit PlatformClosed
  | Some e => raise e
  end.

Definition close_connections (storage : option exn) : M unit :=
  match storage with
  | None => emit StorageClosed
  | Some e => raise e
  end.

Definition close (platform storage : option exn) : M unit :=
  super_close platform;;
  close_connections storage;;
  emit (Log WARNING "Please wait, just cleaning up a bit more");;
  emit AsyncgensShutdown;;
  emit (Sleep 2).

(** ** The [git-pull] command, lines 140-169 *)

(** How the child process behaves: it cannot be started, or it exits on
    its own after [duration] seconds with a return code and its output.
    The two streams of a child that exits are represented by what
    decoding them as UTF-8 text gives, [None] when the bytes do not
    decode; [stderr_at_timeout] is the undecoded bytes read from the
    standard error of a child that is killed at the timeout, [None]
    when nothing was read. *)
Record process : Type := mkProcess {
  spawn_error : option (Z * string * option string);
  duration : Q;
  returncode : Z;
  stdout : option string;
  stderr : option string;
  stderr_at_timeout : option string
}.

(** [subprocess.run(cmd, capture_output=True, check=True,
    encoding="utf-8", timeout=timeout)]; the value returned is
    [c.stdout], the only field the caller reads.  The output of a child
    that exits is decoded before its return code is looked at; a child
    killed at the timeout has its output left as bytes. *)
Definition subprocess_run (cmd : list string) (timeout : Z) (p : process) : M string :=
  match spawn_error p with
  | Some (errno, strerror, filename) => raise (OSError errno strerror filename)
  | None =>
      if Qle_bool (duration p) (inject_Z timeout) then
        match stdout p, stderr p with
        | Some out, Some err =>
            if (returncode p =? 0)%Z then mret out
            else raise (CalledProcessError cmd (returncode p) (Some err))
        | _, _ => raise UnicodeDecodeError
        end
      else raise (TimeoutExpired cmd timeout (stderr_at_timeout p))
  end.

Definition nl : string := String (ascii_of_nat 10) "".

(** What [e.stderr] can be: [None], decoded text (of a child that
    exited), or bytes (of a child killed at the timeout). *)
Inductive captured : Type :=
| Absent
| Text (s : string)
| Bytes (b : string).

(** [e.stderr]: only the [subprocess] exceptions have the attribute. *)
Definition stderr_of (e : exn) : M captured :=
  match e with
  | TimeoutExpired _ _ err =>
      mret (match err with Some b => Bytes b | None => Absent end)
  | CalledProcessError _ _ err =>
      mret (match err with Some s => Text s | None => Absent end)
  | _ => raise (AttributeError "stderr")
  end.

(** [repr] of a [bytes] object: the quote is the apostrophe, or the
    double quote when the bytes hold an apostrophe and no double quote;
    the quote and the backslash are escaped, tab, newline and carriage
    return are written [\t], [\n], [\r], and every other byte outside
    the printable ASCII range as [\x] and two hexadecimal digits. *)
Definition apostrophe : ascii := ascii_of_nat 39.
Definition double_quote : ascii := ascii_of_nat 34.
Definition backslash : ascii := ascii_of_nat 92.

Fixpoint has_byte (c : ascii) (b : string) : bool :=
  match b with
  | EmptyString => false
  | String a t => Ascii.eqb a c || has_byte c t
  end.

Definition hex_digit (n : nat) : string := String.substring n 1 "0123456789abcdef".

Definition escape_byte (quote c : ascii) : string :=
  let n := nat_of_ascii c in
  if Ascii.eqb c quote || Ascii.eqb c backslash then String backslash (String c "")
  else if (n =? 9)%nat then String backslash "t"
  else if (n =? 10)%nat then String backslash "n"
  else if (n =? 13)%nat then String backslash "r"
  else if (n <? 32)%nat || (127 <=? n)%nat then
    String backslash "x" +:+ hex_digit (n / 16) +:+ hex_digit (n mod 16)
  else String c "".

Fixpoint escape_bytes (quote : ascii) (b : string) : string :=
  match b with
  | EmptyString => ""
  | String c t => escape_byte quote c +:+ escape_bytes quote t
  end.

Definition repr_bytes (b : string) : string :=
  let quote :=
    if has_byte apostrophe b && negb (has_byte double_quote b)
    then double_quote else apostrophe in
  "b" +:+ String quote (escape_bytes quote b) +:+ String quote "".

(** [isinstance(e, (subprocess.TimeoutExpired, subprocess.SubprocessError))] *)
Definition is_subprocess_error (e : exn) : bool :=
  match e with
  | TimeoutExpired _ _ _ | CalledProcessError _ _ _ => true
  | _ => false
  end.

(** Truthiness of [e.stderr]: [None], the empty text and the empty bytes
    are false. *)
Definition truthy (o : captured) : bool :=
  match o with
  | Absent => false
  | Text s | Bytes s => Str.truthy s
  end.

Section Commands.

Variable CONFIG_JSON : json.
Variable environ : gmap string string.
(** [repr] of the values an f-string does not print as they are. *)
Variable repr : json -> string.
Variable signal_repr : Z -> string.

(** [f"{v}"] *)
Definition format (v : json) : string :=
  match v with
  | JStr s => s
  | JNull => "None"
  | JBool true => "True"
  | JBool false => "False"
  | JInt z => pretty z
  | _ => repr v
  end.

(** [f"{e.stderr}"] *)
Definition format_captured (o : captured) : string :=
  match o with
  | Absent => "None"
  | Text s => s
  | Bytes b => repr_bytes b
  end.

(** The first message of the [except] branch, lines 153-156. *)
Definition error_message (warning : string) (e : exn) : string :=
  warning +:+ " There was an error trying to execute that " +:+
  "command:" +:+ nl +:+ "```" +:+ nl +:+ str_exn signal_repr e +:+ nl +:+ "```".

Definition output_message (output : string) : string :=
  "Command output:" +:+ nl +:+ "```" +:+ nl +:+ output +:+ nl +:+ "```".

Definition git_pull (author : string) (git : process) : M unit :=
  emit (Log INFO (author +:+ " ran a git pull"));;
  try_except_else
    (subprocess_run ["git"; "pull"] 60 git)
    (fun e =>
       match e with
       | TimeoutExpired _ _ _ | CalledProcessError _ _ _ | OSError _ _ _ =>
           Some (
             emit (Log INFO ("Command error! `" +:+ str_exn signal_repr e +:+ "`"));;
             warning ← constants.__getattr__ CONFIG_JSON environ constants.Emoji "warning";
             emit (Send (error_message (format warning) e));;
             err ← stderr_of e;
             emit (Log TRACE ("Output: " +:+ format_captured err));;
             if is_subprocess_error e && truthy err
             then emit (Send (output_message (format_captured err)))
             else mret tt)
       | _ => None
       end)
    (fun out =>
       green_check ← constants.__getattr__ CONFIG_JSON environ constants.Emoji "green_check";
       emit (Send (format green_check +:+ " Command executed successfully."));;
       if Str.truthy out
       then emit (Send (output_message out))
       else mret tt).

End Commands.

(** ** The module as a whole *)

(** What the process finds around it when it starts. *)
Record world : Type := mkWorld {
  fs : gmap string constants.node;
  environ : gmap string string;
  uvloop : bool;
  db : option exn;
  listdir : list string;
  modules : string -> exn + list string;
  gateway : option exn
}.

(** [bot.run(token)]: the platform connection. *)
Definition run (gateway : option exn) (token : json) : M unit :=
  emit (Run token);;
  match gateway with
  | None => mret tt
  | Some e => raise e
  end.

(** The statements of [__main__.py] in the order they execute: the
    imports (of which [roycemorebot.constants] is the one with effects),
    the event-loop choice, the construction of the bot, the cogs, the
    two debug records, and the connection. *)
Definition script (signal_repr : Z -> string) (w : world) : M unit :=
  consts ← constants.import (fs w) (environ w);
  (if uvloop w
   then emit (Log INFO "Using the fast uvloop asyncio event loop")
   else emit (Log WARNING
     "Using the not-so-fast default asyncio event loop. Consider installing uvloop."));;
  let get := constants.__getattr__ (constants.CONFIG_JSON consts) (environ w) in
  command_prefix ← get constants.Bot "prefix";
  activity ← get constants.Bot "prefix";
  Bot_init signal_repr (db w);;
  load_cogs (modules w) (listdir w);;
  emit (Log INFO ("Debug: " +:+ (if constants.debug_mode consts then "True" else "False")));;
  debug ← environ_getitem (environ w) "DEBUG";
  emit (Log TRACE ("Debug env variable: " +:+
                   match debug with JStr v => v | _ => "None" end));;
  token ← get constants.Bot "bot_token";
  run (gateway w) token.

End main.

(* ===================================================================== *)
(** * Vocabulary of the statements *)
(* ===================================================================== *)

(** The state after one more event. *)
Definition after (ev : event) (st : state) : state :=
  mkState (exts st) (cogs st) (trace st ++ [ev]).

Definition after_all (evs : list event) (st : state) : state :=
  mkState (exts st) (cogs st) (trace st ++ evs).

Definition members (d : json) : option (gmap string json) :=
  match d with
  | JObj m => Some m
  | _ => None
  end.

(** The keys a resolution request walks through, outermost first. *)
Definition path (cls : constants.config_class) (key : string) : list string :=
  match constants.subsection cls with
  | Some sub => [constants.section cls; sub; key]
  | None => [constants.section cls; key]
  end.

(** The value the document stores under a path, if the path is there. *)
Fixpoint stored_at (d : json) (keys : list string) : option json :=
  match keys with
  | [] => Some d
  | k :: rest => m ← members d; v ← m !! k; stored_at v rest
  end.

Definition stored (doc : json) (cls : constants.config_class) (key : string) : option json :=
  stored_at doc (path cls key).

(** The first key of a path that a dictionary of the document lacks:
    every value above it is a dictionary holding the key before. *)
Fixpoint missing_key (d : json) (keys : list string) : option string :=
  match keys with
  | [] => None
  | k :: rest =>
      match d with
      | JObj m =>
          match m !! k with
          | Some v => missing_key v rest
          | None => Some k
          end
      | _ => None
      end
  end.

(** The subscripts of the [try] block of [__getattr__], as one walk down
    the document. *)
Fixpoint walk (d : json) (keys : list string) : M json :=
  match keys with
  | [] => mret d
  | k :: rest => v ← subscript d k; walk v rest
  end.

(** The record [__getattr__] logs before it re-raises. *)
Definition not_found (cls : constants.config_class) (key : string) : event :=
  Log CRITICAL (constants.not_found_message (constants.dotted_path cls key)).

(** The name the [reload] command hands to the registry. *)
Definition qualified (cog : string) : string :=
  if Str.contains "roycemorebot" cog then cog else "roycemorebot.exts." +:+ cog.

(** What resolving [key], taken as it is, against the document and the
    environment comes to: the stored value, or the environment variable
    named by the upper-cased key when the stored value is the marker;
    the [KeyError] of the first missing key, or of the unset variable,
    after the CRITICAL record; the [TypeError] of a value that is not a
    dictionary. *)
Definition resolve (doc : json) (environ : gmap string string)
    (cls : constants.config_class) (key : string) (st : state) : state * outcome json :=
  match stored doc cls key with
  | Some item =>
      if eq_str item "!ENV" then
        match environ !! Str.upper key with
        | Some v => (st, Returned (JStr v))
        | None => (after (not_found cls key) st, Raised (KeyError (Str.upper key)))
        end
      else (st, Returned item)
  | None =>
      match missing_key doc (path cls key) with
      | Some k => (after (not_found cls key) st, Raised (KeyError k))
      | None => (st, Raised TypeError)
      end
  end.

Definition as_value (r : state * outcome json) : state * outcome constants.pyobj :=
  match r with
  | (st, Returned j) => (st, Returned (constants.Value j))
  | (st, Raised e) => (st, Raised e)
  end.

(** A string with one of the letters [A] to [Z] in it. *)
Fixpoint has_capital (s : string) : bool :=
  match s with
  | EmptyString => false
  | String a t =>
      ((65 <=? nat_of_ascii a)%nat && (nat_of_ascii a <=? 90)%nat) || has_capital t
  end.


(** [e.stderr] of the [TimeoutExpired] raised for a child killed at the
    timeout. *)
Definition killed_stderr (p : main.process) : main.captured :=
  match main.stderr_at_timeout p with
  | Some b => main.Bytes b
  | None => main.Absent
  end.

(** The exception of a [git pull] that ran into the timeout. *)
Definition timed_out (err : option string) : exn :=
  TimeoutExpired ["git"; "pull"] 60 err.

(** Events that are log records. *)
Definition is_log (ev : event) : bool :=
  match ev with
  | Log _ _ => true
  | _ => false
  end.

Definition is_run (ev : event) : bool :=
  match ev with
  | Run _ => true
  | _ => false
  end.

(** A computation that, whatever it does, only adds events satisfying
    [P] to the trace. *)
Definition emits {A : Type} (P : event -> bool) (c : M A) : Prop :=
  forall st st' r, c st = (st', r) ->
    exists evs : list event, trace st' = (trace st ++ evs)%list /\ forallb P evs = true.

(** The trace of [st'] is that of [st] with events satisfying [P] added. *)
Definition grows (P : event -> bool) (st st' : state) : Prop :=
  exists evs : list event, trace st' = (trace st ++ evs)%list /\ forallb P evs = true.

Definition not_run (ev : event) : bool := negb (is_run ev).

(** The worse of two latencies, for floats that are numbers. *)
Definition worse (x y : Q) : Q := if Qle_bool x y then y else x.

(* ===================================================================== *)
(** * Concrete inputs *)
(* ===================================================================== *)

Module Fixtures.

Definition initial : state := mkState ∅ [] [].

(** [{"bot": {"prefix": "!", "bot_token": "!ENV"}}] *)
Definition doc_token : json :=
  JObj {[ "bot" := JObj {[ "prefix" := JStr "!"; "bot_token" := JStr "!ENV" ]} ]}.

Definition env_token : gmap string string := {[ "BOT_TOKEN" := "abc123" ]}.

(** [{"bot": {}}] *)
Definition doc_empty_bot : json := JObj {[ "bot" := JObj ∅ ]}.

(** [{"bot": {"1": "!ENV"}}] *)
Definition doc_digit_key : json := JObj {[ "bot" := JObj {[ "1" := JStr "!ENV" ]} ]}.

(** [{"bot": {"prefix": "!"}}] and
    [{"bot": {"prefix": "?", "bot_token": "default-token"}}] *)
Definition doc_override : json := JObj {[ "bot" := JObj {[ "prefix" := JStr "!" ]} ]}.
Definition doc_default : json :=
  JObj {[ "bot" := JObj {[ "prefix" := JStr "?"; "bot_token" := JStr "default-token" ]} ]}.

Definition fs_both : gmap string constants.node :=
  {[ "config.json" := constants.File (Some doc_override);
     "config-default.json" := constants.File (Some doc_default) ]}.
Definition fs_override_only : gmap string constants.node :=
  {[ "config.json" := constants.File (Some doc_override) ]}.

(** A complete configuration. *)
Definition doc_full : json :=
  JObj {[
    "bot" := JObj {[ "prefix" := JStr "!"; "bot_token" := JStr "!ENV" ]};
    "guild" := JObj {[
      "guild_id" := JInt 1;
      "staff_roles" := JObj {[ "admin_role" := JInt 10; "mod_role" := JInt 11;
                               "bot_team_role" := JInt 12 ]};
      "class_roles" := JObj {[ "freshmen" := JInt 20; "sophomores" := JInt 21;
                               "juniors" := JInt 22; "seniors" := JInt 23;
                               "alumni" := JInt 24 ]};
      "channels" := JObj {[ "roycemorebot_commands" := JInt 30; "bot_log" := JInt 31;
                            "mod_bot_commands" := JInt 32 ]};
      "categories" := JObj {[ "clubs" := JInt 40 ]} ]};
    "style" := JObj {[
      "emoji" := JObj {[ "ok" := JStr ":ok:"; "warning" := JStr ":warning:";
                         "no" := JStr ":no:"; "green_check" := JStr ":check:" ]} ]}
  ]}.

Definition env_full : gmap string string :=
  {[ "BOT_TOKEN" := "abc123"; "DEBUG" := "1" ]}.

(** The extension modules of the repository: [status] is the one under
    [exts/]; [utils] stands for a second extension that loads. *)
Definition repository_modules (name : string) : exn + list string :=
  if bool_decide (name = "roycemorebot.exts.status") then status.load
  else if bool_decide (name = "roycemorebot.exts.utils") then inr ["Utils"]
  else inl (ExtensionNotFound name).

Definition world_full : main.world :=
  main.mkWorld {[ "config-default.json" := constants.File (Some doc_full) ]}
    env_full false None ["__init__.py"; "status.py"; "utils.py"]
    repository_modules None.

(** The same surroundings without the [status] extension. *)
Definition world_ok : main.world :=
  main.mkWorld {[ "config-default.json" := constants.File (Some doc_full) ]}
    env_full false None ["__init__.py"; "utils.py"; "README.md"]
    repository_modules None.

Definition no_signal (n : Z) : string := "unknown signal " +:+ pretty n.

Definition no_repr (v : json) : string := "".

(** A [git pull] that hangs on the network for two minutes, after a
    line on its standard error. *)
Definition slow_git : main.process :=
  main.mkProcess None (120 # 1) 0 (Some "Already up to date.") (Some "")
    (Some ("remote: slow" +:+ main.nl)).

(** Some of the names [type] itself answers for. *)
Definition type_attrs (name : string) : option constants.pyobj :=
  if bool_decide (name ∈ ["__name__"; "__doc__"; "__module__"; "__dict__";
                          "__annotations__"; "__class__"; "__bases__"; "__mro__";
                          "mro"; "__getattr__"; "__getitem__"; "__iter__"])
  then Some (constants.Builtin name) else None.

(** [{"bot": {"prefix": "!", "Prefix": "?"}, "guild": [1, 2]}] *)
Definition doc_odd : json :=
  JObj {[ "bot" := JObj {[ "prefix" := JStr "!"; "Prefix" := JStr "?" ]};
          "guild" := JArr [JInt 1; JInt 2] ]}.

(** A [git pull] that fails at once, one that cannot be started, and one
    that has news. *)
Definition failing_git : main.process :=
  main.mkProcess None (1 # 2) 1 (Some "") (Some "fatal: not a git repository") None.
Definition missing_git : main.process :=
  main.mkProcess (Some (2%Z, "No such file or directory", Some "git")) 0 0
    (Some "") (Some "") None.
Definition fresh_git : main.process :=
  main.mkProcess None (3 # 1) 0 (Some "Updating 1a2b3c..4d5e6f") (Some "") None.

(** A [git pull] that exits at once with bytes on its standard output
    that are not UTF-8. *)
Definition garbled_git : main.process :=
  main.mkProcess None (1 # 2) 0 None (Some "") None.

Definition state_with_status : state :=
  mkState {[ "roycemorebot.exts.status" := ["Status"] ]} ["Status"] [].

Definition broken_modules (name : string) : exn + list string :=
  inl (ExtensionFailed name (ImportError "Roles")).

Definition show_float (x : status.float) : string :=
  match x with
  | status.Finite _ => "0.000"
  | status.PosInf => "inf"
  | status.NegInf => "-inf"
  | status.NaN => "nan"
  end.

End Fixtures.

(* ===================================================================== *)
(** * Configuration resolution *)
(* ===================================================================== *)

(** ** Case conversion *)

Lemma lower_ascii_idemp a : Str.lower_ascii (Str.lower_ascii a) = Str.lower_ascii a.
Proof. destruct a as [[] [] [] [] [] [] [] []]; reflexivity. Qed.

Lemma lower_idemp s : Str.lower (Str.lower s) = Str.lower s.
Proof.
  induction s as [|a s IH]; simpl; [reflexivity|].
  by rewrite lower_ascii_idemp, IH.
Qed.

(** ** Running computations *)

Lemma run_bind {A B} (c : M A) (k : A -> M B) st :
  (c ≫= k) st =
  match c st with
  | (st', Returned a) => k a st'
  | (st', Raised e) => (st', Raised e)
  end.
Proof. reflexivity. Qed.

Lemma run_emit ev st : emit ev st = (after ev st, Returned tt).
Proof. reflexivity. Qed.

(** Unfolds the plumbing of the monad and leaves the steps. *)
Ltac run :=
  cbv [mbind M_bind mret M_ret emit raise update loaded_extensions
       try_except try_except_else];
  cbn [exts cogs trace].

Lemma subscript_run d k st :
  subscript d k st =
  (st, match d with
       | JObj m => match m !! k with Some v => Returned v | None => Raised (KeyError k) end
       | _ => Raised TypeError
       end).
Proof.
  destruct d as [| | | | | |m]; try reflexivity.
  simpl. by destruct (m !! k).
Qed.

Lemma walk_state d keys st : (walk d keys st).1 = st.
Proof.
  revert d. induction keys as [|k rest IH]; intros d; [reflexivity|].
  simpl. rewrite run_bind, subscript_run.
  destruct d as [| | | | | |m]; try reflexivity.
  destruct (m !! k); [apply IH|reflexivity].
Qed.

Lemma walk_stored d keys v st :
  stored_at d keys = Some v -> walk d keys st = (st, Returned v).
Proof.
  revert d. induction keys as [|k rest IH]; intros d; simpl.
  - by intros [= ->].
  - rewrite run_bind, subscript_run.
    destruct d as [| | | | | |m]; simpl; try discriminate.
    destruct (m !! k); simpl; [apply IH|discriminate].
Qed.

Lemma walk_missing d keys k st :
  missing_key d keys = Some k -> walk d keys st = (st, Raised (KeyError k)).
Proof.
  revert d. induction keys as [|k' rest IH]; intros d; simpl; [discriminate|].
  rewrite run_bind, subscript_run.
  destruct d as [| | | | | |m]; try discriminate.
  destruct (m !! k'); [apply IH|].
  by intros [= ->].
Qed.

Lemma missing_key_absent d keys k :
  missing_key d keys = Some k -> stored_at d keys = None /\ k ∈ keys.
Proof.
  revert d. induction keys as [|k' rest IH]; intros d; simpl; [discriminate|].
  destruct d as [| | | | | |m]; try discriminate. simpl.
  destruct (m !! k') as [v|]; simpl.
  - intros H. destruct (IH _ H) as [? ?]. split; [done|]. by constructor.
  - intros [= ->]. split; [done|]. constructor.
Qed.

(** ** [__getattr__] in terms of the walk *)

Lemma getattr_run doc env cls name st :
  constants.__getattr__ doc env cls name st =
  let key := Str.lower name in
  match walk doc (path cls key) st with
  | (st', Returned item) =>
      if eq_str item "!ENV" then
        match env !! Str.upper key with
        | Some v => (st', Returned (JStr v))
        | None => (after (not_found cls key) st', Raised (KeyError (Str.upper key)))
        end
      else (st', Returned item)
  | (st', Raised (KeyError k)) => (after (not_found cls key) st', Raised (KeyError k))
  | (st', Raised e) => (st', Raised e)
  end.
Proof.
  unfold constants.__getattr__, try_except, try_except_else, path, not_found.
  destruct (constants.subsection cls) as [sub|]; simpl;
    rewrite !run_bind, !subscript_run.
  - destruct doc as [| | | | | |m]; try reflexivity.
    destruct (m !! constants.section cls) as [sec|]; [|reflexivity].
    rewrite !run_bind, !subscript_run.
    destruct sec as [| | | | | |m0]; try reflexivity.
    destruct (m0 !! sub) as [subsec|]; [|reflexivity].
    rewrite !run_bind, !subscript_run.
    destruct subsec as [| | | | | |m1]; try reflexivity.
    destruct (m1 !! Str.lower name) as [item|]; [|reflexivity].
    unfold environ_getitem. simpl.
    destruct (eq_str item "!ENV"); [|reflexivity].
    by destruct (env !! Str.upper (Str.lower name)).
  - destruct doc as [| | | | | |m]; try reflexivity.
    destruct (m !! constants.section cls) as [sec|]; [|reflexivity].
    rewrite !run_bind, !subscript_run.
    destruct sec as [| | | | | |m0]; try reflexivity.
    destruct (m0 !! Str.lower name) as [item|]; [|reflexivity].
    unfold environ_getitem. simpl.
    destruct (eq_str item "!ENV"); [|reflexivity].
    by destruct (env !! Str.upper (Str.lower name)).
Qed.

(** C1. When the value stored under the (lower-cased) key is the marker
    ["!ENV"] and the environment variable named by the upper-cased key
    is set, resolution returns the value of that variable, and nothing
    is logged. *)
Theorem getattr_env_override doc env cls name v st :
  stored doc cls (Str.lower name) = Some (JStr "!ENV") ->
  env !! Str.upper (Str.lower name) = Some v ->
  constants.__getattr__ doc env cls name st = (st, Returned (JStr v)).
Proof.
  intros Hstored Henv. rewrite getattr_run. simpl.
  rewrite (walk_stored _ _ _ _ Hstored). simpl. by rewrite Henv.
Qed.

Lemma getattr_env_override_scenario :
  constants.__getattr__ Fixtures.doc_token Fixtures.env_token constants.Bot "bot_token"
    Fixtures.initial = (Fixtures.initial, Returned (JStr "abc123")).
Proof. apply getattr_env_override; reflexivity. Defined.

(** X1. A stored value other than the marker is returned unchanged. *)
Lemma getattr_stored doc env cls name v st :
  stored doc cls (Str.lower name) = Some v ->
  eq_str v "!ENV" = false ->
  constants.__getattr__ doc env cls name st = (st, Returned v).
Proof.
  intros Hstored Hv. rewrite getattr_run. simpl.
  rewrite (walk_stored _ _ _ _ Hstored). by rewrite Hv.
Qed.

(** ** Absent paths *)

Lemma walk_not_a_dict d keys st :
  stored_at d keys = None -> missing_key d keys = None ->
  walk d keys st = (st, Raised TypeError).
Proof.
  revert d. induction keys as [|k rest IH]; intros d; simpl; [discriminate|].
  rewrite run_bind, subscript_run.
  destruct d as [| | | | | |m]; try reflexivity. simpl.
  destruct (m !! k); simpl; [apply IH|discriminate].
Qed.

(** C2, as the code has it. When the path is absent because a dictionary
    of the document lacks one of its keys, resolution raises the
    [KeyError] of that first missing key (the section, the subsection or
    the key itself); the full dotted path is in the CRITICAL record
    logged before the error is re-raised, not in the error. *)
Theorem getattr_missing_key doc env cls name k st :
  missing_key doc (path cls (Str.lower name)) = Some k ->
  stored doc cls (Str.lower name) = None /\
  k ∈ path cls (Str.lower name) /\
  constants.__getattr__ doc env cls name st =
    (after (not_found cls (Str.lower name)) st, Raised (KeyError k)).
Proof.
  intros Hmiss.
  destruct (missing_key_absent _ _ _ Hmiss) as [Habsent Hin].
  repeat split; [exact Habsent|exact Hin|].
  rewrite getattr_run. simpl.
  by rewrite (walk_missing _ _ _ _ Hmiss).
Qed.

Lemma getattr_missing_key_prefix :
  stored Fixtures.doc_empty_bot constants.Bot (Str.lower "prefix") = None /\
  "prefix" ∈ path constants.Bot (Str.lower "prefix") /\
  constants.__getattr__ Fixtures.doc_empty_bot ∅ constants.Bot "prefix" Fixtures.initial =
    (after (not_found constants.Bot (Str.lower "prefix")) Fixtures.initial,
     Raised (KeyError "prefix")).
Proof. apply getattr_missing_key. reflexivity. Defined.

(** C2, as the specification states it, fails: with the document [{"bot": {}}] the
    path [bot.prefix] is absent, and the error raised for it carries
    ["prefix"], which neither is nor contains the dotted path. *)
Lemma missing_key_error_lacks_dotted_path :
  stored Fixtures.doc_empty_bot constants.Bot "prefix" = None /\
  constants.dotted_path constants.Bot "prefix" = "bot.prefix" /\
  constants.__getattr__ Fixtures.doc_empty_bot ∅ constants.Bot "prefix" Fixtures.initial =
    (after (Log CRITICAL
       "Tried accessing configuration variable at `bot.prefix`, but it could not be found.")
       Fixtures.initial,
     Raised (KeyError "prefix")) /\
  KeyError "prefix" <> KeyError "bot.prefix" /\
  Str.contains "bot.prefix" "prefix" = false.
Proof. repeat split; try reflexivity. discriminate. Qed.

(** X4. A value that is not a dictionary above the key is a [TypeError],
    which the [except KeyError] clause lets through without a record. *)
Lemma getattr_not_a_dict doc env cls name st :
  stored doc cls (Str.lower name) = None ->
  missing_key doc (path cls (Str.lower name)) = None ->
  constants.__getattr__ doc env cls name st = (st, Raised TypeError).
Proof.
  intros Habsent Hmiss. rewrite getattr_run. simpl.
  by rewrite (walk_not_a_dict _ _ _ Habsent Hmiss).
Qed.

(** ** Unset environment variables *)

(** C3, as the code has it. When the stored value is the marker and the
    variable named by the upper-cased key is not set, resolution raises
    [KeyError] with the name of the variable, after the same CRITICAL
    record an absent path gets: the exception is of the same class as
    for an absent path and differs from it by the key it carries. *)
Theorem getattr_env_unset doc env cls name st :
  stored doc cls (Str.lower name) = Some (JStr "!ENV") ->
  env !! Str.upper (Str.lower name) = None ->
  constants.__getattr__ doc env cls name st =
    (after (not_found cls (Str.lower name)) st,
     Raised (KeyError (Str.upper (Str.lower name)))).
Proof.
  intros Hstored Henv. rewrite getattr_run. simpl.
  rewrite (walk_stored _ _ _ _ Hstored). simpl. by rewrite Henv.
Qed.

Lemma getattr_env_unset_token :
  constants.__getattr__ Fixtures.doc_token ∅ constants.Bot "bot_token" Fixtures.initial =
    (after (not_found constants.Bot (Str.lower "bot_token")) Fixtures.initial,
     Raised (KeyError (Str.upper (Str.lower "bot_token")))).
Proof. apply getattr_env_unset; reflexivity. Defined.

(** C3, as the specification states it, fails: for the key ["1"], whose upper-cased
    and lower-cased forms coincide, the failure for the unset variable
    (document [{"bot": {"1": "!ENV"}}]) is the very failure for the
    absent path (document [{"bot": {}}]): same exception, same record. *)
Lemma unset_variable_fails_like_absent_path :
  stored Fixtures.doc_digit_key constants.Bot (Str.lower "1") = Some (JStr "!ENV") /\
  (∅ : gmap string string) !! Str.upper (Str.lower "1") = None /\
  stored Fixtures.doc_empty_bot constants.Bot (Str.lower "1") = None /\
  constants.__getattr__ Fixtures.doc_digit_key ∅ constants.Bot "1" Fixtures.initial =
    (after (not_found constants.Bot "1") Fixtures.initial, Raised (KeyError "1")) /\
  constants.__getattr__ Fixtures.doc_empty_bot ∅ constants.Bot "1" Fixtures.initial =
    (after (not_found constants.Bot "1") Fixtures.initial, Raised (KeyError "1")).
Proof. repeat split; reflexivity. Qed.

(** ** Item access and attribute access *)

Lemma getattr_lower doc env cls name st :
  constants.__getattr__ doc env cls (Str.lower name) st =
  constants.__getattr__ doc env cls name st.
Proof. rewrite !getattr_run. simpl. by rewrite lower_idemp. Qed.

(** [__getattr__] resolves the lower-cased name. *)
Lemma getattr_resolve doc env cls name st :
  constants.__getattr__ doc env cls name st = resolve doc env cls (Str.lower name) st.
Proof.
  rewrite getattr_run. unfold resolve, stored. cbv zeta.
  destruct (stored_at doc (path cls (Str.lower name))) as [item|] eqn:Hstored.
  - by rewrite (walk_stored _ _ _ _ Hstored).
  - destruct (missing_key doc (path cls (Str.lower name))) as [k|] eqn:Hmiss.
    + by rewrite (walk_missing _ _ _ _ Hmiss).
    + by rewrite (walk_not_a_dict _ _ _ Hstored Hmiss).
Qed.

(** C10, as the code has it. For a name the ordinary attribute lookup of
    the class does not find, [Cls[name]] and [Cls.name] are the same
    computation, and the key is lower-cased before it is looked up in
    the document: asking for the lower-cased name gives the same, and
    what both give is the resolution of the lower-cased name, as a key,
    against the document and the environment. *)
Theorem item_attribute_agree inherited doc env cls name st :
  constants.class_lookup inherited cls name = None ->
  constants.attribute inherited doc env cls name st = constants.item doc env cls name st /\
  constants.item doc env cls (Str.lower name) st = constants.item doc env cls name st /\
  constants.item doc env cls name st = as_value (resolve doc env cls (Str.lower name) st).
Proof.
  intros Hnone. repeat split.
  - unfold constants.attribute. by rewrite Hnone.
  - unfold constants.item, constants.__getitem__, constants.as_pyobj.
    by rewrite getattr_lower.
  - unfold constants.item, constants.__getitem__, constants.as_pyobj, as_value.
    by rewrite getattr_resolve.
Qed.

Lemma item_attribute_agree_PREFIX :
  constants.attribute Fixtures.type_attrs Fixtures.doc_token Fixtures.env_token
    constants.Bot "PREFIX" Fixtures.initial =
  constants.item Fixtures.doc_token Fixtures.env_token constants.Bot "PREFIX"
    Fixtures.initial /\
  constants.item Fixtures.doc_token Fixtures.env_token constants.Bot (Str.lower "PREFIX")
    Fixtures.initial =
  constants.item Fixtures.doc_token Fixtures.env_token constants.Bot "PREFIX"
    Fixtures.initial /\
  constants.item Fixtures.doc_token Fixtures.env_token constants.Bot "PREFIX"
    Fixtures.initial =
  (Fixtures.initial, Returned (constants.Value (JStr "!"))).
Proof. apply item_attribute_agree. reflexivity. Defined.

(** C10, as the specification states it, fails: [section] is bound in the class
    body, so [Bot.section] is ["bot"] and never reaches the document,
    while [Bot["section"]] looks the key up and raises. *)
Lemma item_attribute_differ_on_section :
  constants.attribute Fixtures.type_attrs Fixtures.doc_token Fixtures.env_token
    constants.Bot "section" Fixtures.initial =
    (Fixtures.initial, Returned (constants.Value (JStr "bot"))) /\
  constants.item Fixtures.doc_token Fixtures.env_token constants.Bot "section"
    Fixtures.initial =
    (after (not_found constants.Bot "section") Fixtures.initial,
     Raised (KeyError "section")).
Proof. split; reflexivity. Qed.

(** ** Which document is loaded *)

Lemma load_override fs st :
  is_Some (fs !! "config.json") ->
  constants.load_CONFIG_JSON fs st =
  constants.open_and_load fs "config.json"
    (after (Log INFO "Found `config.json`, loading constants from it.") st).
Proof.
  intros Hsome. unfold constants.load_CONFIG_JSON, constants.exists_.
  rewrite bool_decide_eq_true_2 by exact Hsome. reflexivity.
Qed.

Lemma load_default fs st :
  fs !! "config.json" = None ->
  constants.load_CONFIG_JSON fs st = constants.open_and_load fs "config-default.json" st.
Proof.
  intros Hnone. unfold constants.load_CONFIG_JSON, constants.exists_.
  rewrite bool_decide_eq_false_2; [reflexivity|].
  rewrite Hnone. by intros [? ?].
Qed.

(** C4. When [config.json] exists, it alone is loaded: the document is
    its parsed contents and every resolution, for every class and key,
    is a resolution against that document (a file that cannot be read or
    parsed makes loading, and so resolution, fail).  Two file systems
    with the same [config.json] therefore give the same document and the
    same answers whatever [config-default.json] holds in either: nothing
    of the default file is merged in, also for keys the override file
    lacks. *)
Theorem override_replaces_default fs fs' n env cls name st :
  fs !! "config.json" = Some n ->
  fs' !! "config.json" = Some n ->
  let st1 := after (Log INFO "Found `config.json`, loading constants from it.") st in
  let resolution fs :=
    (doc ← constants.load_CONFIG_JSON fs; constants.__getattr__ doc env cls name) st in
  match n with
  | constants.File (Some override) =>
      constants.load_CONFIG_JSON fs st = (st1, Returned override) /\
      resolution fs = constants.__getattr__ override env cls name st1
  | _ =>
      exists e, constants.load_CONFIG_JSON fs st = (st1, Raised e) /\
                resolution fs = (st1, Raised e)
  end /\
  constants.load_CONFIG_JSON fs st = constants.load_CONFIG_JSON fs' st /\
  resolution fs = resolution fs'.
Proof.
  intros Hfs Hfs' st1 resolution. subst resolution. cbv beta.
  assert (forall g, g !! "config.json" = Some n ->
            constants.load_CONFIG_JSON g st =
            match n with
            | constants.File (Some override) => (st1, Returned override)
            | constants.File None => (st1, Raised JSONDecodeError)
            | constants.Unreadable =>
                (st1, Raised (OSError 13 "Permission denied" (Some "config.json")))
            | constants.Directory =>
                (st1, Raised (OSError 21 "Is a directory" (Some "config.json")))
            end) as Hload.
  { intros g Hg. rewrite load_override by (rewrite Hg; eauto).
    unfold constants.open_and_load. rewrite Hg. by destruct n as [[d|]| |]. }
  rewrite !run_bind, (Hload fs Hfs), (Hload fs' Hfs').
  repeat split. destruct n as [[override|]| |]; [by split|by eexists..].
Qed.

(** The token only the default file has is not found when the override
    file exists. *)
Lemma override_replaces_default_token :
  let st1 :=
    after (Log INFO "Found `config.json`, loading constants from it.") Fixtures.initial in
  let resolution fs :=
    (doc ← constants.load_CONFIG_JSON fs;
     constants.__getattr__ doc ∅ constants.Bot "bot_token") Fixtures.initial in
  (constants.load_CONFIG_JSON Fixtures.fs_both Fixtures.initial =
     (st1, Returned Fixtures.doc_override) /\
   resolution Fixtures.fs_both =
     (after (not_found constants.Bot "bot_token") st1, Raised (KeyError "bot_token"))) /\
  constants.load_CONFIG_JSON Fixtures.fs_both Fixtures.initial =
  constants.load_CONFIG_JSON Fixtures.fs_override_only Fixtures.initial /\
  resolution Fixtures.fs_both = resolution Fixtures.fs_override_only.
Proof.
  exact (override_replaces_default Fixtures.fs_both Fixtures.fs_override_only
           (constants.File (Some Fixtures.doc_override)) ∅ constants.Bot "bot_token"
           Fixtures.initial eq_refl eq_refl).
Defined.

Example default_token_not_visible :
  (doc ← constants.load_CONFIG_JSON Fixtures.fs_both;
   constants.__getattr__ doc ∅ constants.Bot "bot_token") Fixtures.initial =
  (after (not_found constants.Bot "bot_token")
     (after (Log INFO "Found `config.json`, loading constants from it.") Fixtures.initial),
   Raised (KeyError "bot_token")).
Proof. reflexivity. Qed.

(** ** The debug flag *)

(** X7. Whatever [DEBUG] is set to, the empty string included, the flag is
    [True]. *)
Lemma DEBUG_MODE_set env v st :
  env !! "DEBUG" = Some v -> constants.DEBUG_MODE env st = (st, Returned true).
Proof.
  intros Hset. unfold constants.DEBUG_MODE, environ_getitem.
  rewrite run_bind, Hset. reflexivity.
Qed.

Lemma DEBUG_MODE_set_empty :
  constants.DEBUG_MODE {[ "DEBUG" := "" ]} Fixtures.initial = (Fixtures.initial, Returned true).
Proof. apply (DEBUG_MODE_set _ ""). reflexivity. Defined.

(** C7 at an environment without [DEBUG]: evaluating the flag raises
    [KeyError], it does not give [False]; and with it the import of the
    module, with a complete configuration, fails. *)
Theorem DEBUG_MODE_unset_raises :
  (forall st, constants.DEBUG_MODE ∅ st = (st, Raised (KeyError "DEBUG"))) /\
  constants.import {[ "config-default.json" := constants.File (Some Fixtures.doc_full) ]}
    {[ "BOT_TOKEN" := "abc123" ]} Fixtures.initial =
    (Fixtures.initial, Raised (KeyError "DEBUG")).
Proof. split; [intros st|]; reflexivity. Qed.

(* ===================================================================== *)
(** * Process lifecycle *)
(* ===================================================================== *)

(** ** The extension registry *)

Lemma for_each_app {A} (l1 l2 : list A) (body : A -> M unit) st :
  main.for_each (l1 ++ l2) body st = (main.for_each l1 body;; main.for_each l2 body) st.
Proof.
  revert st. induction l1 as [|x l1 IH]; intros st; simpl.
  - rewrite run_bind. reflexivity.
  - rewrite !run_bind. destruct (body x st) as [st1 [[]|e]]; [|reflexivity].
    rewrite IH, run_bind. reflexivity.
Qed.

Lemma add_cogs_return new st :
  exists st', main.for_each new main.add_cog st = (st', Returned tt) /\ exts st' = exts st.
Proof.
  revert st. induction new as [|c new IH]; intros st; simpl.
  - by exists st.
  - rewrite run_bind. unfold main.add_cog at 1. rewrite run_bind. simpl.
    edestruct IH as (st' & -> & Hexts). exists st'. split; [reflexivity|].
    rewrite Hexts. reflexivity.
Qed.

Lemma remove_cogs_return old st :
  exists st', main.for_each old main.remove_cog st = (st', Returned tt) /\ exts st' = exts st.
Proof.
  revert st. induction old as [|c old IH]; intros st; simpl.
  - by exists st.
  - rewrite run_bind. unfold main.remove_cog at 1. rewrite run_bind. simpl.
    edestruct IH as (st' & -> & Hexts). exists st'. split; [reflexivity|].
    rewrite Hexts. reflexivity.
Qed.

(** A load that fails leaves the state as it found it. *)
Lemma load_extension_raised modules name st st' e :
  main.load_extension modules name st = (st', Raised e) -> st' = st.
Proof.
  unfold main.load_extension. rewrite run_bind. simpl.
  destruct (exts st !! name); [by intros [= <- _]|].
  destruct (modules name) as [e'|new]; [by intros [= <- _]|].
  rewrite run_bind.
  destruct (add_cogs_return new st) as (st1 & -> & _). discriminate.
Qed.

(** ** Loading the cogs at startup *)

(** C5, as the code has it. The load loop has no handler: when the
    files before [file] have loaded and loading [file] raises, the loop
    raises that same exception, with the state the failed load left (the
    one it found), and whatever comes after the loop, the remaining
    files and the rest of the script with the platform connection, does
    not run. *)
Theorem load_failure_propagates modules before file remaining (rest : M unit)
    st st' st'' e :
  main.load_cogs modules before st = (st', Returned tt) ->
  main.is_cog_file file = true ->
  main.load_extension modules ("roycemorebot.exts." +:+ Str.drop_last 3 file) st' =
    (st'', Raised e) ->
  st'' = st' /\
  (main.load_cogs modules (before ++ file :: remaining);; rest) st = (st', Raised e).
Proof.
  intros Hbefore Hcog Hload.
  assert (st'' = st') as -> by exact (load_extension_raised _ _ _ _ _ Hload).
  split; [reflexivity|].
  unfold main.load_cogs in *.
  rewrite run_bind, for_each_app, run_bind, Hbefore. simpl.
  rewrite run_bind, Hcog, Hload. reflexivity.
Qed.

Lemma load_failure_propagates_status :
  Fixtures.initial = Fixtures.initial /\
  (main.load_cogs Fixtures.repository_modules (["__init__.py"] ++ "status.py" :: ["utils.py"]);;
   main.run None (JStr "abc123")) Fixtures.initial =
  (Fixtures.initial,
   Raised (ExtensionFailed "roycemorebot.exts.status" (ImportError "Roles"))).
Proof.
  apply (load_failure_propagates Fixtures.repository_modules ["__init__.py"] "status.py"
           ["utils.py"] (main.run None (JStr "abc123"))
           Fixtures.initial Fixtures.initial Fixtures.initial); reflexivity.
Defined.

(** C5, as the specification states it, fails: in a directory listing [__init__.py],
    [status.py] and [utils.py], with a complete configuration, the
    [status] extension fails on its import of [Roles]; the script ends
    there with that exception: nothing records the failure, [utils],
    which loads on its own, is not loaded, and there is no [Run] event. *)
Lemma startup_stops_at_failed_extension :
  status.load = inl (ExtensionFailed "roycemorebot.exts.status" (ImportError "Roles")) /\
  main.script Fixtures.no_signal Fixtures.world_full Fixtures.initial =
    (mkState ∅ []
       [Log WARNING
          "Using the not-so-fast default asyncio event loop. Consider installing uvloop.";
        DbInit],
     Raised (ExtensionFailed "roycemorebot.exts.status" (ImportError "Roles"))) /\
  main.load_cogs Fixtures.repository_modules ["utils.py"] Fixtures.initial =
    (mkState {[ "roycemorebot.exts.utils" := ["Utils"] ]} ["Utils"]
       [Log INFO "Cog loaded: Utils"],
     Returned tt).
Proof. repeat split; reflexivity. Qed.

(** ** Shutdown *)

(** C6, as the code has it. [close] runs its steps in sequence with
    no handler: when the platform disconnect returns, storage is closed
    next and the grace period follows; when the platform disconnect
    raises, [close] raises that exception at once, whatever closing the
    storage would have done, and the state is the one before the call. *)
Theorem close_in_sequence st :
  (forall e storage, main.close (Some e) storage st = (st, Raised e)) /\
  main.close None None st =
    (mkState (exts st) (cogs st)
       (trace st ++ [PlatformClosed; StorageClosed;
                     Log WARNING "Please wait, just cleaning up a bit more";
                     AsyncgensShutdown; Sleep 2]),
     Returned tt).
Proof.
  split.
  - intros e storage. reflexivity.
  - unfold main.close, main.super_close, main.close_connections.
    run. rewrite <- !app_assoc. reflexivity.
Qed.

(** C6, as the specification states it, fails: when the platform disconnect raises,
    [close] ends with that exception and no [StorageClosed] event. *)
Lemma close_skips_storage_after_failed_disconnect :
  main.close (Some (GatewayError "connection reset")) None Fixtures.initial =
    (Fixtures.initial, Raised (GatewayError "connection reset")) /\
  StorageClosed ∉ trace Fixtures.initial.
Proof. split; [reflexivity|]. by intros ?%elem_of_nil. Qed.

(** ** The [reload] command *)

(** C9. For a cog whose qualified name is not loaded, the registry's
    reload raises [ExtensionNotLoaded] and changes nothing, and the
    command catches it: it returns normally, the registry is as before,
    and the operator is sent the "Could not find" message. *)
Theorem reload_not_loaded modules cog st :
  exts st !! qualified cog = None ->
  main.reload_extension modules (qualified cog) st =
    (st, Raised (ExtensionNotLoaded (qualified cog))) /\
  main.reload modules cog st =
    (after (Send ("Could not find the extension `" +:+ cog +:+ "`!")) st, Returned tt) /\
  exts (main.reload modules cog st).1 !! qualified cog = None.
Proof.
  intros Hnot.
  assert (main.reload_extension modules (qualified cog) st =
          (st, Raised (ExtensionNotLoaded (qualified cog)))) as Hreload.
  { unfold main.reload_extension, main.unload_extension.
    rewrite !run_bind. simpl. by rewrite Hnot. }
  split; [exact Hreload|].
  assert (main.reload modules cog st =
          (after (Send ("Could not find the extension `" +:+ cog +:+ "`!")) st,
           Returned tt)) as Hcommand.
  { unfold main.reload, try_except_else.
    unfold qualified in Hreload.
    destruct (Str.contains "roycemorebot" cog); by rewrite Hreload. }
  split; [exact Hcommand|].
  rewrite Hcommand. exact Hnot.
Qed.

Lemma reload_not_loaded_status :
  main.reload_extension Fixtures.repository_modules (qualified "status") Fixtures.initial =
    (Fixtures.initial, Raised (ExtensionNotLoaded (qualified "status"))) /\
  main.reload Fixtures.repository_modules "status" Fixtures.initial =
    (after (Send "Could not find the extension `status`!") Fixtures.initial,
     Returned tt) /\
  exts (main.reload Fixtures.repository_modules "status" Fixtures.initial).1
    !! qualified "status" = None.
Proof. apply reload_not_loaded. reflexivity. Defined.

(** ** The [git-pull] command *)

Lemma walk_pure d keys st st' : (walk d keys st).2 = (walk d keys st').2.
Proof.
  revert d. induction keys as [|k rest IH]; intros d; [reflexivity|].
  simpl. rewrite !run_bind, !subscript_run.
  destruct d as [| | | | | |m]; try reflexivity.
  destruct (m !! k); [apply IH|reflexivity].
Qed.

(** A resolution that returns does so from every state, leaving it as
    it is. *)
Lemma getattr_returned doc env cls name v st st' st2 :
  constants.__getattr__ doc env cls name st = (st', Returned v) ->
  constants.__getattr__ doc env cls name st2 = (st2, Returned v).
Proof.
  rewrite !getattr_run. simpl.
  pose proof (walk_state doc (path cls (Str.lower name)) st2) as Hst.
  pose proof (walk_pure doc (path cls (Str.lower name)) st st2) as Hpure.
  destruct (walk doc (path cls (Str.lower name)) st) as [s1 o1].
  destruct (walk doc (path cls (Str.lower name)) st2) as [s2 o2].
  simpl in *. subst s2 o2.
  destruct o1 as [item|e].
  - destruct (eq_str item "!ENV").
    + destruct (env !! Str.upper (Str.lower name)); [|discriminate].
      by intros [= _ <-].
    + by intros [= _ <-].
  - by destruct e.
Qed.

Lemma subprocess_run_timeout p st :
  main.spawn_error p = None -> (60 < main.duration p)%Q ->
  main.subprocess_run ["git"; "pull"] 60 p st =
    (st, Raised (timed_out (main.stderr_at_timeout p))).
Proof.
  intros Hspawn Hslow. unfold main.subprocess_run. rewrite Hspawn.
  destruct (Qle_bool (main.duration p) (inject_Z 60)) eqn:Hle; [|reflexivity].
  apply Qle_bool_iff in Hle. exfalso. exact (Qlt_not_le _ _ Hslow Hle).
Qed.

(** What [subprocess.run] can raise when the child does not run into
    the timeout. *)
Lemma subprocess_run_other p st st' e :
  main.subprocess_run ["git"; "pull"] 60 p st = (st', Raised e) ->
  main.spawn_error p <> None \/ (main.duration p <= 60)%Q ->
  (exists errno strerror filename, e = OSError errno strerror filename) \/
  (exists returncode err, e = CalledProcessError ["git"; "pull"] returncode err) \/
  e = UnicodeDecodeError.
Proof.
  unfold main.subprocess_run.
  destruct (main.spawn_error p) as [[[errno strerror] filename]|].
  - intros [= _ <-] _. left. eauto.
  - intros Hrun [Hspawn|Hfast]; [done|].
    apply Qle_bool_iff in Hfast. change (inject_Z 60) with (60:Q) in Hrun.
    rewrite Hfast in Hrun.
    destruct (main.stdout p) as [out|], (main.stderr p) as [err|];
      try (injection Hrun as _ <-; by right; right).
    destruct (main.returncode p =? 0)%Z; [discriminate|].
    injection Hrun as _ <-. right. left. eauto.
Qed.

Lemma str_timed_out sig err :
  main.str_exn sig (timed_out err) = "Command '['git', 'pull']' timed out after 60 seconds".
Proof. reflexivity. Qed.

(** The text of a timeout differs from the text of the other failures
    at its first character (OS errors, and the empty text of an
    exception that is not formatted) or after the command (exit statuses
    and signals). *)
Lemma str_timed_out_specific sig err e :
  (exists errno strerror filename, e = OSError errno strerror filename) \/
  (exists returncode err', e = CalledProcessError ["git"; "pull"] returncode err') \/
  e = UnicodeDecodeError ->
  main.str_exn sig (timed_out err) +:+ main.nl +:+ "```" <>
  main.str_exn sig e +:+ main.nl +:+ "```".
Proof.
  rewrite str_timed_out.
  intros [(errno & strerror & filename & ->)|[(returncode & err' & ->)| ->]] Heq.
  - apply (f_equal (String.get 0)) in Heq. simpl in Heq.
    discriminate.
  - apply (f_equal (String.get 26)) in Heq.
    simpl in Heq. destruct (returncode <? 0)%Z; discriminate.
  - apply (f_equal (String.get 0)) in Heq. discriminate.
Qed.

(** C8, as the code has it. [git pull] is run with a timeout of 60
    seconds.  When the child starts and would take longer than that, and
    [Emoji.warning] resolves, the command returns normally and the
    first message sent to the invoking channel is the warning followed
    by the text of the timeout, "Command '['git', 'pull']' timed out
    after 60 seconds"; what was read from the standard error of the
    child is logged, and sent when it is not empty, as the bytes it is;
    no failure of [git pull] other than the timeout produces the first
    message. *)
Theorem git_pull_timeout_message doc env repr sig author git warning st :
  constants.__getattr__ doc env constants.Emoji "warning" st = (st, Returned warning) ->
  main.spawn_error git = None ->
  (60 < main.duration git)%Q ->
  let e := timed_out (main.stderr_at_timeout git) in
  let message := main.error_message sig (main.format repr warning) e in
  main.str_exn sig e = "Command '['git', 'pull']' timed out after 60 seconds" /\
  main.git_pull doc env repr sig author git st =
    (after_all
       ([Log INFO (author +:+ " ran a git pull");
         Log INFO ("Command error! `" +:+ main.str_exn sig e +:+ "`");
         Send message;
         Log TRACE ("Output: " +:+ main.format_captured (killed_stderr git))] ++
        (if main.truthy (killed_stderr git)
         then [Send (main.output_message (main.format_captured (killed_stderr git)))]
         else []))
       st,
     Returned tt) /\
  (forall other st1 st2 e',
     main.subprocess_run ["git"; "pull"] 60 other st1 = (st2, Raised e') ->
     main.spawn_error other <> None \/ (main.duration other <= 60)%Q ->
     main.error_message sig (main.format repr warning) e' <> message).
Proof.
  intros Hwarning Hspawn Hslow e message.
  split; [reflexivity|]. split.
  - unfold main.git_pull. run.
    rewrite (subprocess_run_timeout _ _ Hspawn Hslow).
    subst message e. unfold timed_out, after_all, killed_stderr. cbn beta iota.
    rewrite (getattr_returned _ _ _ _ _ _ _ _ Hwarning).
    cbn [main.stderr_of main.is_subprocess_error andb]. run.
    destruct (main.truthy _);
      cbn [exts cogs trace]; rewrite <- !app_assoc; reflexivity.
  - intros other st1 st2 e' Hrun Hother Heq.
    pose proof (subprocess_run_other _ _ _ _ Hrun Hother) as Hkind.
    unfold message, main.error_message in Heq.
    do 6 apply (inj (String.app _)) in Heq.
    symmetry in Heq. revert Heq. by apply str_timed_out_specific.
Qed.

Lemma git_pull_timeout_message_slow_git :
  let e := timed_out (Some ("remote: slow" +:+ main.nl)) in
  let message :=
    ":warning: There was an error trying to execute that command:" +:+ main.nl +:+
    "```" +:+ main.nl +:+ "Command '['git', 'pull']' timed out after 60 seconds" +:+
    main.nl +:+ "```" in
  main.str_exn Fixtures.no_signal e = "Command '['git', 'pull']' timed out after 60 seconds" /\
  main.git_pull Fixtures.doc_full Fixtures.env_full Fixtures.no_repr Fixtures.no_signal
    "operator#0001" Fixtures.slow_git Fixtures.initial =
    (after_all
       [Log INFO "operator#0001 ran a git pull";
        Log INFO "Command error! `Command '['git', 'pull']' timed out after 60 seconds`";
        Send message;
        Log TRACE "Output: b'remote: slow\n'";
        Send ("Command output:" +:+ main.nl +:+ "```" +:+ main.nl +:+
              "b'remote: slow\n'" +:+ main.nl +:+ "```")]
       Fixtures.initial,
     Returned tt) /\
  (forall other st1 st2 e',
     main.subprocess_run ["git"; "pull"] 60 other st1 = (st2, Raised e') ->
     main.spawn_error other <> None \/ (main.duration other <= 60)%Q ->
     main.error_message Fixtures.no_signal ":warning:" e' <> message).
Proof.
  exact (git_pull_timeout_message Fixtures.doc_full Fixtures.env_full Fixtures.no_repr
           Fixtures.no_signal "operator#0001" Fixtures.slow_git (JStr ":warning:")
           Fixtures.initial eq_refl eq_refl eq_refl).
Defined.

(** C8, as the specification states it, fails: with a configuration that
    has no [style] section the warning emoji does not resolve, and a
    [git pull] that runs for two minutes ends the command with the
    [KeyError] of the missing section; nothing is sent to the operator. *)
Lemma git_pull_timeout_without_emoji :
  (60 < main.duration Fixtures.slow_git)%Q /\
  main.spawn_error Fixtures.slow_git = None /\
  main.git_pull Fixtures.doc_token Fixtures.env_token Fixtures.no_repr Fixtures.no_signal
    "operator#0001" Fixtures.slow_git Fixtures.initial =
    (after_all
       [Log INFO "operator#0001 ran a git pull";
        Log INFO "Command error! `Command '['git', 'pull']' timed out after 60 seconds`";
        Log CRITICAL
          "Tried accessing configuration variable at `style.emoji.warning`, but it could not be found."]
       Fixtures.initial,
     Raised (KeyError "style")).
Proof. repeat split; reflexivity. Qed.

(* ===================================================================== *)
(** * Further properties of the configuration layer *)
(* ===================================================================== *)

(** ** Inverting a sequence of steps *)

Lemma bind_returned {A B} (c : M A) (k : A -> M B) st st' b :
  (c ≫= k) st = (st', Returned b) ->
  exists a st1, c st = (st1, Returned a) /\ k a st1 = (st', Returned b).
Proof.
  rewrite run_bind. destruct (c st) as [st1 [a|e]]; [|discriminate].
  intros Hk. by exists a, st1.
Qed.

Lemma bind_raised {A B} (c : M A) (k : A -> M B) st st' e :
  (c ≫= k) st = (st', Raised e) ->
  c st = (st', Raised e) \/
  exists a st1, c st = (st1, Returned a) /\ k a st1 = (st', Raised e).
Proof.
  rewrite run_bind. destruct (c st) as [st1 [a|e']].
  - intros Hk. right. by exists a, st1.
  - intros [= <- <-]. by left.
Qed.

(** ** What resolution can do *)

Lemma walk_outcomes d keys st :
  (exists v, walk d keys st = (st, Returned v)) \/
  (exists k, walk d keys st = (st, Raised (KeyError k))) \/
  walk d keys st = (st, Raised TypeError).
Proof.
  destruct (stored_at d keys) as [v|] eqn:Hstored.
  - left. exists v. by apply walk_stored.
  - destruct (missing_key d keys) as [k|] eqn:Hmiss.
    + right. left. exists k. by apply walk_missing.
    + right. right. by apply walk_not_a_dict.
Qed.

Lemma getattr_cases doc env cls name st :
  (exists v, constants.__getattr__ doc env cls name st = (st, Returned v)) \/
  (exists k, constants.__getattr__ doc env cls name st =
             (after (not_found cls (Str.lower name)) st, Raised (KeyError k))) \/
  constants.__getattr__ doc env cls name st = (st, Raised TypeError).
Proof.
  rewrite getattr_run. simpl.
  destruct (walk_outcomes doc (path cls (Str.lower name)) st)
    as [[v ->]|[[k ->]| ->]].
  - destruct (eq_str v "!ENV"); [|by left; eexists].
    destruct (env !! Str.upper (Str.lower name)).
    + left. by eexists.
    + right. left. by eexists.
  - right. left. by eexists.
  - by right; right.
Qed.

(** X2. Resolution has three outcomes and no other: it returns a value and
    leaves the state alone, or it raises [KeyError] after exactly one
    CRITICAL record naming the dotted path, or it raises [TypeError]
    and leaves the state alone.  It never touches the registry. *)
Theorem getattr_outcomes doc env cls name st st' r :
  constants.__getattr__ doc env cls name st = (st', r) ->
  exts st' = exts st /\ cogs st' = cogs st /\
  match r with
  | Returned _ | Raised TypeError => st' = st
  | Raised (KeyError _) => st' = after (not_found cls (Str.lower name)) st
  | Raised _ => False
  end.
Proof.
  destruct (getattr_cases doc env cls name st) as [[v ->]|[[k ->]| ->]];
    intros [= <- <-]; done.
Qed.

Lemma getattr_outcomes_missing :
  exts (after (not_found constants.Bot "nickname") Fixtures.initial) = exts Fixtures.initial /\
  cogs (after (not_found constants.Bot "nickname") Fixtures.initial) = cogs Fixtures.initial /\
  after (not_found constants.Bot "nickname") Fixtures.initial =
    after (not_found constants.Bot (Str.lower "nickname")) Fixtures.initial.
Proof.
  apply (getattr_outcomes Fixtures.doc_token ∅ constants.Bot "nickname" Fixtures.initial
           _ (Raised (KeyError "nickname"))).
  reflexivity.
Defined.

Lemma getattr_returned_state doc env cls name v st st' :
  constants.__getattr__ doc env cls name st = (st', Returned v) -> st' = st.
Proof.
  intros H. pose proof (getattr_returned _ _ _ _ _ _ _ st H) as H'.
  rewrite H in H'. by injection H'.
Qed.

(** A stored value other than the marker is what resolution returns,
    whatever its type. *)
Lemma getattr_stored_prefix :
  constants.__getattr__ Fixtures.doc_token ∅ constants.Bot "prefix" Fixtures.initial =
    (Fixtures.initial, Returned (JStr "!")).
Proof. apply getattr_stored; reflexivity. Defined.

Lemma getattr_not_a_dict_guild :
  constants.__getattr__ Fixtures.doc_odd ∅ constants.Guild "guild_id" Fixtures.initial =
    (Fixtures.initial, Raised TypeError).
Proof. apply getattr_not_a_dict; reflexivity. Defined.

Lemma lower_ascii_not_capital a :
  ((65 <=? nat_of_ascii (Str.lower_ascii a))%nat &&
   (nat_of_ascii (Str.lower_ascii a) <=? 90)%nat) = false.
Proof. destruct a as [[] [] [] [] [] [] [] []]; reflexivity. Qed.

Lemma lower_no_capital s : has_capital (Str.lower s) = false.
Proof.
  induction s as [|a s IH]; [reflexivity|].
  cbn [Str.lower has_capital]. by rewrite lower_ascii_not_capital, IH.
Qed.

(** X3. Names that differ only in the case of their letters resolve alike:
    what is resolved, as the key, against the document and the
    environment is the lower-cased name, in which none of the letters
    [A] to [Z] is left. *)
Theorem getattr_case_insensitive doc env cls name name' st :
  Str.lower name = Str.lower name' ->
  constants.__getattr__ doc env cls name st = constants.__getattr__ doc env cls name' st /\
  constants.__getattr__ doc env cls name st = resolve doc env cls (Str.lower name) st /\
  has_capital (Str.lower name) = false.
Proof.
  intros Heq. repeat split.
  - rewrite !getattr_run. simpl. by rewrite Heq.
  - apply getattr_resolve.
  - apply lower_no_capital.
Qed.

(** The document has both [prefix] and [Prefix]; asking for [Prefix]
    gives the value stored under [prefix]. *)
Lemma getattr_case_insensitive_Prefix :
  constants.__getattr__ Fixtures.doc_odd ∅ constants.Bot "Prefix" Fixtures.initial =
  constants.__getattr__ Fixtures.doc_odd ∅ constants.Bot "prefix" Fixtures.initial /\
  constants.__getattr__ Fixtures.doc_odd ∅ constants.Bot "Prefix" Fixtures.initial =
  (Fixtures.initial, Returned (JStr "!")) /\
  has_capital (Str.lower "Prefix") = false.
Proof. apply getattr_case_insensitive. reflexivity. Defined.

(** X5. The marker never comes out of the document: if resolution returns
    the string ["!ENV"], that string is the value of the environment
    variable. *)
Theorem getattr_marker_from_environ doc env cls name st st' :
  constants.__getattr__ doc env cls name st = (st', Returned (JStr "!ENV")) ->
  env !! Str.upper (Str.lower name) = Some "!ENV".
Proof.
  rewrite getattr_run. simpl.
  destruct (walk doc (path cls (Str.lower name)) st) as [st1 [item|e]].
  - destruct (eq_str item "!ENV") eqn:Hmarker.
    + destruct (env !! Str.upper (Str.lower name)) as [v|]; [|discriminate].
      by intros [= _ ->].
    + intros [= _ ->]. discriminate Hmarker.
  - by destruct e.
Qed.

Lemma getattr_marker_from_environ_token :
  ({[ "BOT_TOKEN" := "!ENV" ]} : gmap string string) !! Str.upper (Str.lower "bot_token") =
    Some "!ENV".
Proof.
  apply (getattr_marker_from_environ Fixtures.doc_token _ constants.Bot "bot_token"
           Fixtures.initial Fixtures.initial).
  reflexivity.
Defined.

(** ** Loading *)

(** X6. The loaded document is the parsed override file when that file
    exists, and the parsed default file only when the override file does
    not exist: an override file that is there but cannot be read or
    parsed is never replaced by the default. *)
Theorem load_returned_iff fs doc st st' :
  constants.load_CONFIG_JSON fs st = (st', Returned doc) <->
  (fs !! "config.json" = Some (constants.File (Some doc)) /\
   st' = after (Log INFO "Found `config.json`, loading constants from it.") st) \/
  (fs !! "config.json" = None /\
   fs !! "config-default.json" = Some (constants.File (Some doc)) /\ st' = st).
Proof.
  destruct (fs !! "config.json") as [n|] eqn:Hoverride.
  - rewrite load_override by (rewrite Hoverride; eauto).
    unfold constants.open_and_load. rewrite Hoverride. split.
    + destruct n as [[d|]| |]; try discriminate.
      intros [= <- <-]. by left.
    + intros [[[= ->] ->]|[? _]]; [reflexivity|discriminate].
  - rewrite load_default by exact Hoverride.
    unfold constants.open_and_load. split.
    + destruct (fs !! "config-default.json") as [[[d|]| |]|]; try discriminate.
      intros [= <- <-]. by right.
    + intros [[? _]|(_ & -> & ->)]; [discriminate|reflexivity].
Qed.

Lemma load_returned_override :
  constants.load_CONFIG_JSON Fixtures.fs_both Fixtures.initial =
    (after (Log INFO "Found `config.json`, loading constants from it.") Fixtures.initial,
     Returned Fixtures.doc_override).
Proof. apply load_returned_iff. left. split; reflexivity. Defined.

(** ** The module as a whole *)

(** X8. Whenever the module can be imported, the debug flag is [True], the
    administrator role of [BOT_ADMINS] and of [MOD_ROLES] is the same
    value, [CLASS_ROLES] has its five entries, and the only trace the
    import leaves is that of loading the document. *)
Theorem import_returned fs env st st' m :
  constants.import fs env st = (st', Returned m) ->
  constants.load_CONFIG_JSON fs st = (st', Returned (constants.CONFIG_JSON m)) /\
  constants.debug_mode m = true /\
  is_Some (env !! "DEBUG") /\
  (exists bot_team admin mod_,
     constants.BOT_ADMINS m = [bot_team; admin] /\
     constants.MOD_ROLES m = [mod_; admin] /\
     constants.__getattr__ (constants.CONFIG_JSON m) env constants.StaffRoles "admin_role" st' =
       (st', Returned admin)) /\
  length (constants.CLASS_ROLES m) = 5%nat.
Proof.
  unfold constants.import. intros H.
  apply bind_returned in H as (doc & st1 & Hload & H).
  apply bind_returned in H as (debug & st2 & Hdebug & H).
  unfold constants.DEBUG_MODE, environ_getitem in Hdebug.
  rewrite run_bind in Hdebug.
  destruct (env !! "DEBUG") as [v|] eqn:Hset; [|discriminate].
  injection Hdebug as <- <-.
  cbv zeta in H.
  apply bind_returned in H as (bot_team & s3 & H3 & H).
  apply getattr_returned_state in H3 as ->.
  apply bind_returned in H as (admin & s4 & H4 & H).
  pose proof (getattr_returned_state _ _ _ _ _ _ _ H4) as ->.
  apply bind_returned in H as (mod_ & s5 & H5 & H).
  apply getattr_returned_state in H5 as ->.
  apply bind_returned in H as (admin' & s6 & H6 & H).
  pose proof (getattr_returned_state _ _ _ _ _ _ _ H6) as ->.
  rewrite H4 in H6. injection H6 as <-.
  apply bind_returned in H as (r1 & s7 & H7 & H).
  apply getattr_returned_state in H7 as ->.
  apply bind_returned in H as (r2 & s8 & H8 & H).
  apply getattr_returned_state in H8 as ->.
  apply bind_returned in H as (r3 & s9 & H9 & H).
  apply getattr_returned_state in H9 as ->.
  apply bind_returned in H as (r4 & s10 & H10 & H).
  apply getattr_returned_state in H10 as ->.
  apply bind_returned in H as (r5 & s11 & H11 & H).
  apply getattr_returned_state in H11 as ->.
  injection H as <- <-. simpl.
  repeat split; [exact Hload|eauto|].
  exists bot_team, admin, mod_. by repeat split.
Qed.

Lemma import_returned_full :
  let fs : gmap string constants.node :=
    {[ "config-default.json" := constants.File (Some Fixtures.doc_full) ]} in
  let m := constants.mkModule Fixtures.doc_full true [JInt 12; JInt 10] [JInt 11; JInt 10]
             [JInt 20; JInt 21; JInt 22; JInt 23; JInt 24] in
  constants.load_CONFIG_JSON fs Fixtures.initial =
    (Fixtures.initial, Returned (constants.CONFIG_JSON m)) /\
  constants.debug_mode m = true /\
  is_Some (Fixtures.env_full !! "DEBUG") /\
  (exists bot_team admin mod_,
     constants.BOT_ADMINS m = [bot_team; admin] /\
     constants.MOD_ROLES m = [mod_; admin] /\
     constants.__getattr__ (constants.CONFIG_JSON m) Fixtures.env_full constants.StaffRoles
       "admin_role" Fixtures.initial = (Fixtures.initial, Returned admin)) /\
  length (constants.CLASS_ROLES m) = 5%nat.
Proof.
  intros fs m.
  exact (import_returned fs Fixtures.env_full Fixtures.initial Fixtures.initial m eq_refl).
Defined.

(** ** Iterating over a constants class *)

Lemma attribute_returned inherited doc env cls name v st st' :
  constants.attribute inherited doc env cls name st = (st', Returned v) ->
  st' = st /\
  forall st2, constants.attribute inherited doc env cls name st2 = (st2, Returned v).
Proof.
  unfold constants.attribute, constants.as_pyobj.
  destruct (constants.class_lookup inherited cls name) as [o|].
  - intros [= <- <-]. by split.
  - destruct (constants.__getattr__ doc env cls name st) as [s1 [j|e]] eqn:Hget;
      [|discriminate].
    intros [= <- <-].
    pose proof (getattr_returned_state _ _ _ _ _ _ _ Hget) as ->.
    split; [reflexivity|]. intros st2.
    by rewrite (getattr_returned _ _ _ _ _ _ _ st2 Hget).
Qed.

(** X9. Iterating a constants class to its end yields one pair per
    annotated name, in the order of the annotations and under the names
    as annotated; each value is what attribute access gives for that
    name, and the state is left as it was. *)
Theorem iter_returned inherited doc env cls pairs st st' :
  constants.__iter__ inherited doc env cls st = (st', Returned pairs) ->
  st' = st /\
  pairs.*1 = constants.annotations cls /\
  Forall (fun p => constants.attribute inherited doc env cls p.1 st = (st, Returned p.2)) pairs.
Proof.
  unfold constants.__iter__.
  generalize (constants.annotations cls) as names.
  intros names. revert pairs st'.
  induction names as [|name names IH]; intros pairs st'; simpl.
  - intros [= <- <-]. by repeat split.
  - intros H.
    apply bind_returned in H as (v & s1 & Hattr & H).
    apply attribute_returned in Hattr as [-> Hattr].
    apply bind_returned in H as (rest & s2 & Hrest & H).
    apply IH in Hrest as (-> & Hnames & Hvalues).
    injection H as <- <-. repeat split.
    + simpl. by f_equal.
    + constructor; [apply Hattr|exact Hvalues].
Qed.

Lemma iter_returned_Emoji :
  let pairs := [("ok", constants.Value (JStr ":ok:"));
                ("warning", constants.Value (JStr ":warning:"));
                ("no", constants.Value (JStr ":no:"));
                ("green_check", constants.Value (JStr ":check:"))] in
  Fixtures.initial = Fixtures.initial /\
  pairs.*1 = constants.annotations constants.Emoji /\
  Forall (fun p => constants.attribute Fixtures.type_attrs Fixtures.doc_full Fixtures.env_full
                     constants.Emoji p.1 Fixtures.initial = (Fixtures.initial, Returned p.2))
    pairs.
Proof.
  intros pairs.
  exact (iter_returned Fixtures.type_attrs Fixtures.doc_full Fixtures.env_full constants.Emoji
           pairs Fixtures.initial Fixtures.initial eq_refl).
Defined.

(* ===================================================================== *)
(** * Further properties of the lifecycle *)
(* ===================================================================== *)

(** ** Cog files *)

Lemma substring_all s : String.substring 0 (String.length s) s = s.
Proof. induction s as [|a s IH]; simpl; [reflexivity|by f_equal]. Qed.

Lemma substring_split s n :
  (n <= String.length s)%nat ->
  String.substring 0 n s +:+ String.substring n (String.length s - n) s = s.
Proof.
  revert n. induction s as [|a s IH]; intros n Hn.
  - by destruct n.
  - destruct n as [|n].
    + exact (substring_all (String a s)).
    + change (String a (String.substring 0 n s +:+
                        String.substring n (String.length s - n) s) = String a s).
      f_equal. apply IH. simpl in Hn. lia.
Qed.

Lemma endswith_split p s :
  Str.endswith p s = true -> Str.drop_last (String.length p) s +:+ p = s.
Proof.
  unfold Str.endswith, Str.drop_last. intros [Hlen Heq]%andb_prop.
  apply Nat.leb_le in Hlen. apply String.eqb_eq in Heq.
  pose proof (substring_split s (String.length s - String.length p)) as Hsplit.
  replace (String.length s - (String.length s - String.length p))%nat
    with (String.length p) in Hsplit by lia.
  rewrite Heq in Hsplit. apply Hsplit. lia.
Qed.

Lemma startswith_char c a t :
  Str.startswith (String c "") (String a t) = if ascii_dec c a then true else false.
Proof.
  unfold Str.startswith. cbn [String.prefix].
  destruct (ascii_dec c a); [by destruct t|reflexivity].
Qed.

Lemma length_app s p :
  String.length (s +:+ p) = (String.length s + String.length p)%nat.
Proof.
  induction s as [|a s IH]; [reflexivity|].
  change (S (String.length (s +:+ p)) = S (String.length s + String.length p)).
  by rewrite IH.
Qed.

Lemma substring_app_l s p : String.substring 0 (String.length s) (s +:+ p) = s.
Proof.
  induction s as [|a s IH].
  - by destruct p.
  - change (String a (String.substring 0 (String.length s) (s +:+ p)) = String a s).
    by rewrite IH.
Qed.

Lemma substring_app_r s p :
  String.substring (String.length s) (String.length p) (s +:+ p) = p.
Proof.
  induction s as [|a s IH]; [apply substring_all|exact IH].
Qed.

Lemma endswith_app s p : Str.endswith p (s +:+ p) = true.
Proof.
  unfold Str.endswith. rewrite length_app.
  apply andb_true_intro. split; [apply Nat.leb_le; lia|].
  replace (String.length s + String.length p - String.length p)%nat
    with (String.length s) by lia.
  rewrite substring_app_r. apply String.eqb_refl.
Qed.

Lemma drop_last_app s p : Str.drop_last (String.length p) (s +:+ p) = s.
Proof.
  unfold Str.drop_last. rewrite length_app.
  replace (String.length s + String.length p - String.length p)%nat
    with (String.length s) by lia.
  apply substring_app_l.
Qed.

(** X10. A directory entry is taken for a cog exactly when it is [stem.py]
    for a stem that does not begin with an underscore (the empty stem
    included); the stem is what the load loop appends to
    [roycemorebot.exts.] to name the extension. *)
Theorem cog_file_iff file :
  main.is_cog_file file = true <->
  exists stem, file = stem +:+ ".py" /\ Str.startswith "_" stem = false /\
               Str.drop_last 3 file = stem.
Proof.
  unfold main.is_cog_file. split.
  - intros [Hpy Hprivate]%andb_prop.
    apply negb_true_iff in Hprivate.
    pose proof (endswith_split ".py" file Hpy) as Hsplit. simpl in Hsplit.
    exists (Str.drop_last 3 file). split; [by symmetry|]. split; [|reflexivity].
    rewrite <- Hsplit in Hprivate.
    destruct (Str.drop_last 3 file) as [|a stem]; [reflexivity|].
    change (String a stem +:+ ".py") with (String a (stem +:+ ".py")) in Hprivate.
    by rewrite startswith_char in *.
  - intros (stem & -> & Hprivate & _).
    rewrite endswith_app. simpl. apply negb_true_iff.
    destruct stem as [|a stem]; [reflexivity|].
    change (String a stem +:+ ".py") with (String a (stem +:+ ".py")).
    by rewrite startswith_char in *.
Qed.

Lemma cog_file_iff_status :
  exists stem, "status.py" = stem +:+ ".py" /\ Str.startswith "_" stem = false /\
               Str.drop_last 3 "status.py" = stem.
Proof. apply cog_file_iff. reflexivity. Defined.

(** X11. The load loop sees only the cog files: entries that do not end in
    [.py] or begin with an underscore contribute nothing, wherever they
    stand in the listing. *)
Theorem load_cogs_only_cog_files modules listdir st :
  main.load_cogs modules listdir st =
  main.load_cogs modules (filter (fun file => main.is_cog_file file = true) listdir) st.
Proof.
  unfold main.load_cogs. revert st.
  induction listdir as [|file listdir IH]; intros st; [reflexivity|].
  rewrite filter_cons. simpl.
  destruct (main.is_cog_file file) eqn:Hcog.
  - rewrite decide_True by reflexivity. simpl. rewrite Hcog, !run_bind.
    destruct (main.load_extension _ _ st) as [st1 [[]|e]]; [apply IH|reflexivity].
  - rewrite decide_False by discriminate. rewrite run_bind. apply IH.
Qed.

(** ** Cogs *)

Lemma filter_other_snoc (cog : string) (l : list string) :
  cog ∉ l -> filter (λ c, c ≠ cog) (l ++ [cog])%list = l.
Proof.
  intros Hfresh. rewrite filter_app.
  rewrite (filter_cons _ cog), decide_False by (by intros H; apply H).
  rewrite filter_nil, app_nil_r.
  induction l as [|c l IH]; [reflexivity|].
  rewrite filter_cons, decide_True.
  - f_equal. apply IH. intros Hin. apply Hfresh. by constructor.
  - intros ->. apply Hfresh. constructor.
Qed.

(** X12. Adding a cog the bot does not have and removing it again leaves the
    cogs as they were, and each of the two steps writes its INFO
    record. *)
Theorem add_remove_cog cog st :
  cog ∉ cogs st ->
  (main.add_cog cog;; main.remove_cog cog) st =
    (after_all [Log INFO ("Cog loaded: " +:+ cog); Log INFO ("Cog unloaded: " +:+ cog)] st,
     Returned tt).
Proof.
  intros Hfresh. unfold main.add_cog, main.remove_cog, after_all. run.
  rewrite (filter_other_snoc _ _ Hfresh), <- app_assoc. reflexivity.
Qed.

Lemma add_remove_cog_Status :
  (main.add_cog "Status";; main.remove_cog "Status") Fixtures.initial =
    (after_all [Log INFO "Cog loaded: Status"; Log INFO "Cog unloaded: Status"]
       Fixtures.initial,
     Returned tt).
Proof. apply add_remove_cog. by intros ?%elem_of_nil. Defined.

(** ** Creating the bot *)



(** ** Shutdown *)

(** X14. [close] returns normally exactly when both the platform disconnect
    and the storage close succeed, and then the five steps have happened
    in order. *)
Theorem close_returned_iff platform storage st st' :
  main.close platform storage st = (st', Returned tt) <->
  platform = None /\ storage = None /\
  st' = after_all [PlatformClosed; StorageClosed;
                   Log WARNING "Please wait, just cleaning up a bit more";
                   AsyncgensShutdown; Sleep 2] st.
Proof.
  unfold main.close, main.super_close, main.close_connections, after_all.
  destruct platform as [e|]; [split; [discriminate|by intros [? _]]|].
  destruct storage as [e|]; run; [split; [discriminate|by intros (_ & ? & _)]|].
  rewrite <- !app_assoc. simpl. split.
  - by intros [= <-].
  - by intros (_ & _ & ->).
Qed.

Lemma close_returned_clean :
  main.close None None Fixtures.initial =
    (after_all [PlatformClosed; StorageClosed;
                Log WARNING "Please wait, just cleaning up a bit more";
                AsyncgensShutdown; Sleep 2] Fixtures.initial,
     Returned tt).
Proof. apply close_returned_iff. by repeat split. Defined.

(** X15. When [close] raises, the exception is that of the first step that
    failed: of the platform disconnect, with nothing done, or of the
    storage close, with the platform disconnected; in neither case is
    the warning logged or the two seconds waited. *)
Theorem close_raised platform storage st st' e :
  main.close platform storage st = (st', Raised e) ->
  (platform = Some e /\ st' = st) \/
  (platform = None /\ storage = Some e /\ st' = after PlatformClosed st).
Proof.
  unfold main.close, main.super_close, main.close_connections.
  destruct platform as [e1|]; [intros [= <- <-]; by left|].
  destruct storage as [e2|]; run; [intros [= <- <-]; by right|discriminate].
Qed.

Lemma close_raised_storage :
  (None = Some (OSError 5 "Input/output error" None) /\
   after PlatformClosed Fixtures.initial = Fixtures.initial) \/
  ((None : option exn) = None /\
   Some (OSError 5 "Input/output error" None) = Some (OSError 5 "Input/output error" None) /\
   after PlatformClosed Fixtures.initial = after PlatformClosed Fixtures.initial).
Proof.
  apply (close_raised None (Some (OSError 5 "Input/output error" None)) Fixtures.initial).
  reflexivity.
Defined.

(** ** The [reload] command, continued *)



Lemma reload_cases modules cog st st' r :
  main.reload_extension modules (qualified cog) st = (st', r) ->
  main.reload modules cog st =
  match r with
  | Returned _ => (after (Send ("Cog `" +:+ cog +:+ "` successfully reloaded!")) st', Returned tt)
  | Raised (ExtensionNotLoaded _) =>
      (after (Send ("Could not find the extension `" +:+ cog +:+ "`!")) st', Returned tt)
  | Raised e => (st', Raised e)
  end.
Proof.
  intros Hreload. unfold main.reload, try_except_else. unfold qualified in Hreload.
  destruct (Str.contains "roycemorebot" cog); rewrite Hreload;
    destruct r as [[]|e]; try reflexivity; by destruct e.
Qed.

(** X16. The command answers only for the outcome it expects: a reload that
    returns is acknowledged, [ExtensionNotLoaded] is reported, and any
    other exception of the registry leaves the command as it is, with
    the state the registry left and no message to the operator. *)
Theorem reload_outcomes modules cog st st' r :
  main.reload_extension modules (qualified cog) st = (st', r) ->
  main.reload modules cog st =
  match r with
  | Returned _ => (after (Send ("Cog `" +:+ cog +:+ "` successfully reloaded!")) st', Returned tt)
  | Raised (ExtensionNotLoaded _) =>
      (after (Send ("Could not find the extension `" +:+ cog +:+ "`!")) st', Returned tt)
  | Raised e => (st', Raised e)
  end.
Proof. exact (reload_cases modules cog st st' r). Qed.


Lemma reload_outcomes_broken :
  main.reload Fixtures.broken_modules "status" Fixtures.state_with_status =
    (mkState ∅ [] [Log INFO "Cog unloaded: Status"],
     Raised (ExtensionFailed "roycemorebot.exts.status" (ImportError "Roles"))).
Proof.
  exact (reload_outcomes Fixtures.broken_modules "status" Fixtures.state_with_status
           (mkState ∅ [] [Log INFO "Cog unloaded: Status"])
           (Raised (ExtensionFailed "roycemorebot.exts.status" (ImportError "Roles")))
           eq_refl).
Defined.

(** ** The [git-pull] command, continued *)

Lemma subprocess_run_cases cmd timeout p st :
  main.subprocess_run cmd timeout p st =
  (st,
   match main.spawn_error p with
   | Some (errno, strerror, filename) => Raised (OSError errno strerror filename)
   | None =>
       if Qle_bool (main.duration p) (inject_Z timeout) then
         match main.stdout p, main.stderr p with
         | Some out, Some err =>
             if (main.returncode p =? 0)%Z then Returned out
             else Raised (CalledProcessError cmd (main.returncode p) (Some err))
         | _, _ => Raised UnicodeDecodeError
         end
       else Raised (TimeoutExpired cmd timeout (main.stderr_at_timeout p))
   end).
Proof.
  unfold main.subprocess_run.
  destruct (main.spawn_error p) as [[[errno strerror] filename]|]; [reflexivity|].
  destruct (Qle_bool _ _); [|reflexivity].
  destruct (main.stdout p), (main.stderr p); try reflexivity.
  by destruct (_ =? _)%Z.
Qed.



(** X18. A [git pull] whose output decodes as UTF-8 and that exits with
    status 0 within the minute is acknowledged with the check mark,
    followed by its output when there is any. *)
Theorem git_pull_success doc env repr sig author git check out err st :
  constants.__getattr__ doc env constants.Emoji "green_check" st = (st, Returned check) ->
  main.spawn_error git = None ->
  (main.duration git <= 60)%Q ->
  main.stdout git = Some out ->
  main.stderr git = Some err ->
  main.returncode git = 0%Z ->
  main.git_pull doc env repr sig author git st =
    (after_all
       ([Log INFO (author +:+ " ran a git pull");
         Send (main.format repr check +:+ " Command executed successfully.")] ++
        (if Str.truthy out then [Send (main.output_message out)] else []))
       st,
     Returned tt).
Proof.
  intros Hcheck Hspawn Hfast Hout Herr Hzero.
  unfold main.git_pull. run. rewrite subprocess_run_cases.
  rewrite Hspawn, Hout, Herr, Hzero. apply Qle_bool_iff in Hfast.
  change (inject_Z 60) with (60 : Q). rewrite Hfast. simpl.
  rewrite (getattr_returned _ _ _ _ _ _ _ _ Hcheck). unfold after_all.
  destruct (Str.truthy out);
    cbn [exts cogs trace]; rewrite <- !app_assoc; reflexivity.
Qed.

Lemma git_pull_success_fresh :
  main.git_pull Fixtures.doc_full Fixtures.env_full Fixtures.no_repr Fixtures.no_signal
    "operator#0001" Fixtures.fresh_git Fixtures.initial =
    (after_all
       [Log INFO "operator#0001 ran a git pull";
        Send ":check: Command executed successfully.";
        Send (main.output_message "Updating 1a2b3c..4d5e6f")]
       Fixtures.initial,
     Returned tt).
Proof.
  exact (git_pull_success Fixtures.doc_full Fixtures.env_full Fixtures.no_repr
           Fixtures.no_signal "operator#0001" Fixtures.fresh_git (JStr ":check:")
           "Updating 1a2b3c..4d5e6f" "" Fixtures.initial
           eq_refl eq_refl ltac:(discriminate) eq_refl eq_refl eq_refl).
Defined.

(** X19. A [git pull] whose output decodes as UTF-8 and that exits with a
    non-zero status within the minute is reported with that status,
    followed by what it wrote to standard error when that is not empty;
    the command itself returns. *)
Theorem git_pull_failed doc env repr sig author git warning out err st :
  constants.__getattr__ doc env constants.Emoji "warning" st = (st, Returned warning) ->
  main.spawn_error git = None ->
  (main.duration git <= 60)%Q ->
  main.stdout git = Some out ->
  main.stderr git = Some err ->
  main.returncode git <> 0%Z ->
  let e := CalledProcessError ["git"; "pull"] (main.returncode git) (Some err) in
  main.git_pull doc env repr sig author git st =
    (after_all
       ([Log INFO (author +:+ " ran a git pull");
         Log INFO ("Command error! `" +:+ main.str_exn sig e +:+ "`");
         Send (main.error_message sig (main.format repr warning) e);
         Log TRACE ("Output: " +:+ err)] ++
        (if Str.truthy err then [Send (main.output_message err)] else []))
       st,
     Returned tt).
Proof.
  intros Hwarning Hspawn Hfast Hout Herr Hnonzero e. subst e.
  unfold main.git_pull. run. rewrite subprocess_run_cases.
  rewrite Hspawn, Hout, Herr. apply Qle_bool_iff in Hfast.
  change (inject_Z 60) with (60 : Q). rewrite Hfast.
  apply Z.eqb_neq in Hnonzero. rewrite Hnonzero. cbn beta iota.
  rewrite (getattr_returned _ _ _ _ _ _ _ _ Hwarning).
  cbn [main.stderr_of main.is_subprocess_error andb]. run.
  cbn [main.truthy main.format_captured andb]. unfold after_all.
  destruct (Str.truthy err);
    cbn [exts cogs trace]; rewrite <- !app_assoc; reflexivity.
Qed.

Lemma git_pull_failed_no_repository :
  main.git_pull Fixtures.doc_full Fixtures.env_full Fixtures.no_repr Fixtures.no_signal
    "operator#0001" Fixtures.failing_git Fixtures.initial =
    (after_all
       [Log INFO "operator#0001 ran a git pull";
        Log INFO "Command error! `Command '['git', 'pull']' returned non-zero exit status 1.`";
        Send (":warning: There was an error trying to execute that command:" +:+ main.nl +:+
              "```" +:+ main.nl +:+
              "Command '['git', 'pull']' returned non-zero exit status 1." +:+ main.nl +:+
              "```");
        Log TRACE "Output: fatal: not a git repository";
        Send (main.output_message "fatal: not a git repository")]
       Fixtures.initial,
     Returned tt).
Proof.
  exact (git_pull_failed Fixtures.doc_full Fixtures.env_full Fixtures.no_repr
           Fixtures.no_signal "operator#0001" Fixtures.failing_git (JStr ":warning:")
           "" "fatal: not a git repository" Fixtures.initial
           eq_refl eq_refl ltac:(discriminate) eq_refl eq_refl ltac:(discriminate)).
Defined.

(** X20. When [git] cannot be started, the operator gets the warning with
    the text of the [OSError], and then the command itself fails: the
    exception has no [stderr] attribute, so reading it raises
    [AttributeError]. *)
Theorem git_pull_not_started doc env repr sig author git warning errno strerror filename st :
  constants.__getattr__ doc env constants.Emoji "warning" st = (st, Returned warning) ->
  main.spawn_error git = Some (errno, strerror, filename) ->
  let e := OSError errno strerror filename in
  main.git_pull doc env repr sig author git st =
    (after_all
       [Log INFO (author +:+ " ran a git pull");
        Log INFO ("Command error! `" +:+ main.str_exn sig e +:+ "`");
        Send (main.error_message sig (main.format repr warning) e)]
       st,
     Raised (AttributeError "stderr")).
Proof.
  intros Hwarning Hspawn e. subst e.
  unfold main.git_pull, main.subprocess_run. run.
  rewrite Hspawn. cbn beta iota.
  rewrite (getattr_returned _ _ _ _ _ _ _ _ Hwarning).
  cbn [main.stderr_of]. unfold after_all. cbn [exts cogs trace].
  rewrite <- !app_assoc. reflexivity.
Qed.

Lemma git_pull_not_started_missing :
  main.git_pull Fixtures.doc_full Fixtures.env_full Fixtures.no_repr Fixtures.no_signal
    "operator#0001" Fixtures.missing_git Fixtures.initial =
    (after_all
       [Log INFO "operator#0001 ran a git pull";
        Log INFO "Command error! `[Errno 2] No such file or directory: 'git'`";
        Send (":warning: There was an error trying to execute that command:" +:+ main.nl +:+
              "```" +:+ main.nl +:+ "[Errno 2] No such file or directory: 'git'" +:+ main.nl +:+
              "```")]
       Fixtures.initial,
     Raised (AttributeError "stderr")).
Proof.
  exact (git_pull_not_started Fixtures.doc_full Fixtures.env_full Fixtures.no_repr
           Fixtures.no_signal "operator#0001" Fixtures.missing_git (JStr ":warning:")
           2%Z "No such file or directory" (Some "git") Fixtures.initial eq_refl eq_refl).
Defined.


Example git_pull_undecodable :
  main.git_pull Fixtures.doc_full Fixtures.env_full Fixtures.no_repr Fixtures.no_signal
    "operator#0001" Fixtures.garbled_git Fixtures.initial =
    (after (Log INFO "operator#0001 ran a git pull") Fixtures.initial,
     Raised UnicodeDecodeError).
Proof. reflexivity. Qed.


(** ** What the steps of the script add to the trace *)

Lemma grows_refl P st : grows P st st.
Proof. exists []. by rewrite app_nil_r. Qed.

Lemma grows_trans P st1 st2 st3 : grows P st1 st2 -> grows P st2 st3 -> grows P st1 st3.
Proof.
  intros (evs1 & H1 & HP1) (evs2 & H2 & HP2). exists (evs1 ++ evs2)%list.
  rewrite H2, H1, <- app_assoc, forallb_app, HP1, HP2. by split.
Qed.

Lemma grows_after P ev st : P ev = true -> grows P st (after ev st).
Proof. intros HP. exists [ev]. simpl. by rewrite HP. Qed.

Lemma grows_weaken (P Q : event -> bool) st st' :
  (forall ev, P ev = true -> Q ev = true) -> grows P st st' -> grows Q st st'.
Proof.
  intros HPQ (evs & H & HP). exists evs. split; [exact H|].
  apply forallb_forall. intros ev Hin.
  apply HPQ. by apply (proj1 (forallb_forall P evs) HP).
Qed.

Lemma emits_ret {A} P (a : A) : emits P (mret a : M A).
Proof. intros st st' r [= <- _]. apply grows_refl. Qed.

Lemma emits_raise {A} P e : emits P (raise e : M A).
Proof. intros st st' r [= <- _]. apply grows_refl. Qed.

Lemma emits_emit P ev : P ev = true -> emits P (emit ev).
Proof. intros HP st st' r [= <- _]. by apply grows_after. Qed.

Lemma emits_bind {A B} P (c : M A) (k : A -> M B) :
  emits P c -> (forall a, emits P (k a)) -> emits P (c ≫= k).
Proof.
  intros Hc Hk st st' r. rewrite run_bind.
  destruct (c st) as [st1 [a|e]] eqn:Hrun.
  - intros Hrest. eapply grows_trans; [exact (Hc _ _ _ Hrun)|exact (Hk _ _ _ _ Hrest)].
  - intros [= <- _]. exact (Hc _ _ _ Hrun).
Qed.

Lemma emits_update P f : (forall st, trace (f st) = trace st) -> emits P (update f).
Proof.
  intros Hf st st' r [= <- _]. exists []. by rewrite Hf, app_nil_r.
Qed.

Lemma emits_for_each {A} P (l : list A) (body : A -> M unit) :
  (forall x, emits P (body x)) -> emits P (main.for_each l body).
Proof.
  intros Hbody. induction l as [|x l IH]; simpl.
  - apply emits_ret.
  - apply emits_bind; [apply Hbody|intros _; exact IH].
Qed.

Lemma emits_getattr doc env cls name : emits is_log (constants.__getattr__ doc env cls name).
Proof.
  intros st st' r.
  destruct (getattr_cases doc env cls name st) as [[v ->]|[[k ->]| ->]];
    intros [= <- _]; try apply grows_refl.
  by apply grows_after.
Qed.

Lemma emits_environ_getitem P env k : emits P (environ_getitem env k).
Proof.
  unfold environ_getitem. destruct (env !! k); [apply emits_ret|apply emits_raise].
Qed.

Lemma emits_load_CONFIG_JSON fs : emits is_log (constants.load_CONFIG_JSON fs).
Proof.
  assert (forall p, emits is_log (constants.open_and_load fs p)) as Hopen.
  { intros p. unfold constants.open_and_load.
    destruct (fs !! p) as [[[d|]| |]|]; (apply emits_ret || apply emits_raise). }
  unfold constants.load_CONFIG_JSON. destruct (constants.exists_ fs "config.json").
  - apply emits_bind; [by apply emits_emit|intros _; apply Hopen].
  - apply Hopen.
Qed.

Lemma emits_import fs env : emits is_log (constants.import fs env).
Proof.
  unfold constants.import.
  apply emits_bind; [apply emits_load_CONFIG_JSON|intros doc].
  apply emits_bind.
  { unfold constants.DEBUG_MODE.
    apply emits_bind; [apply emits_environ_getitem|intros v; apply emits_ret]. }
  intros debug. cbv zeta.
  repeat (apply emits_bind; [apply emits_getattr|intros ?]).
  apply emits_ret.
Qed.

Lemma emits_load_extension modules name : emits is_log (main.load_extension modules name).
Proof.
  unfold main.load_extension.
  apply emits_bind; [intros st st' r [= <- _]; apply grows_refl|intros loaded].
  destruct (loaded !! name); [apply emits_raise|].
  destruct (modules name) as [e|new]; [apply emits_raise|].
  apply emits_bind.
  - apply emits_for_each. intros cog. unfold main.add_cog.
    apply emits_bind; [by apply emits_update|intros _; by apply emits_emit].
  - intros _. by apply emits_update.
Qed.

Lemma emits_load_cogs modules listdir : emits is_log (main.load_cogs modules listdir).
Proof.
  unfold main.load_cogs. apply emits_for_each. intros file.
  destruct (main.is_cog_file file); [apply emits_load_extension|apply emits_ret].
Qed.

Lemma Bot_init_cases sig db st st' r :
  main.Bot_init sig db st = (st', r) ->
  (r = Returned tt /\ st' = after DbInit st) \/
  (exists e, r = Raised e /\ grows is_log st st').
Proof.
  unfold main.Bot_init, main.init_db, try_except, try_except_else.
  destruct db as [e|].
  - unfold raise. destruct e; intros [= <- <-]; right; eexists;
      (split; [reflexivity|]); try apply grows_refl; by apply grows_after.
  - intros [= <- <-]. by left.
Qed.

Lemma bind_cases {A B} (c : M A) (k : A -> M B) st st' r :
  (c ≫= k) st = (st', r) ->
  (exists e, c st = (st', Raised e) /\ r = Raised e) \/
  (exists a st1, c st = (st1, Returned a) /\ k a st1 = (st', r)).
Proof.
  rewrite run_bind. destruct (c st) as [st1 [a|e]].
  - intros Hk. right. by exists a, st1.
  - intros [= <- <-]. left. by exists e.
Qed.

Lemma emit_log_grows lv msg st st' r :
  emit (Log lv msg) st = (st', r) -> grows is_log st st'.
Proof. intros [= <- _]. by apply grows_after. Qed.

Lemma log_not_run ev : is_log ev = true -> not_run ev = true.
Proof. by destruct ev. Qed.

(** ** The order of startup *)

(** X22. In every run of the script, whatever its outcome, the platform
    connection is opened at most once and as the last thing the script
    does, after the storage has been initialised, and with the token
    that [Bot.bot_token] resolves to in the loaded document. *)
Theorem script_connects_last sig w st st' r :
  main.script sig w st = (st', r) ->
  grows not_run st st' \/
  exists pre token,
    trace st' = (trace st ++ pre ++ [Run token])%list /\
    forallb not_run pre = true /\
    DbInit ∈ pre /\
    (exists m st1,
       constants.import (main.fs w) (main.environ w) st = (st1, Returned m) /\
       constants.__getattr__ (constants.CONFIG_JSON m) (main.environ w) constants.Bot
         "bot_token" st = (st, Returned token)) /\
    r = match main.gateway w with None => Returned tt | Some e => Raised e end.
Proof.
  unfold main.script. intros H.
  pose proof (grows_refl is_log st) as Hacc.
  (* everything before the bot is created only logs *)
  apply bind_cases in H as [(e & H1 & ->)|(m & s1 & Himport & H)].
  { left. apply (grows_weaken is_log); [exact log_not_run|].
    exact (emits_import _ _ _ _ _ H1). }
  pose proof (grows_trans _ _ _ _ Hacc (emits_import _ _ _ _ _ Himport)) as Hacc1.
  clear Hacc. cbv zeta in H.
  apply bind_cases in H as [(e & H1 & ->)|([] & s2 & H2 & H)].
  { left. apply (grows_weaken is_log); [exact log_not_run|].
    eapply grows_trans; [exact Hacc1|].
    destruct (main.uvloop w); exact (emit_log_grows _ _ _ _ _ H1). }
  assert (grows is_log st s2) as Hacc2.
  { eapply grows_trans; [exact Hacc1|].
    destruct (main.uvloop w); exact (emit_log_grows _ _ _ _ _ H2). }
  clear Hacc1 H2.
  apply bind_cases in H as [(e & H1 & ->)|(prefix & s3 & H3 & H)].
  { left. apply (grows_weaken is_log); [exact log_not_run|].
    eapply grows_trans; [exact Hacc2|exact (emits_getattr _ _ _ _ _ _ _ H1)]. }
  apply getattr_returned_state in H3 as ->.
  apply bind_cases in H as [(e & H1 & ->)|(activity & s4 & H4 & H)].
  { left. apply (grows_weaken is_log); [exact log_not_run|].
    eapply grows_trans; [exact Hacc2|exact (emits_getattr _ _ _ _ _ _ _ H1)]. }
  apply getattr_returned_state in H4 as ->.
  (* the bot is created *)
  apply bind_cases in H as [(e & H1 & ->)|([] & s5 & H5 & H)].
  { left. apply (grows_weaken is_log); [exact log_not_run|].
    eapply grows_trans; [exact Hacc2|].
    apply Bot_init_cases in H1 as [[? _]|(e' & _ & Hlogs)]; [discriminate|exact Hlogs]. }
  apply Bot_init_cases in H5 as [[_ ->]|(e' & ? & _)]; [|discriminate].
  assert (forall s, grows is_log (after DbInit s2) s -> grows not_run st s) as Hafter.
  { intros s Hs.
    eapply grows_trans; [exact (grows_weaken _ _ _ _ log_not_run Hacc2)|].
    eapply grows_trans; [exact (grows_after not_run DbInit s2 eq_refl)|].
    exact (grows_weaken _ _ _ _ log_not_run Hs). }
  (* the cogs, the two debug records, the token *)
  apply bind_cases in H as [(e & H1 & ->)|([] & s6 & H6 & H)].
  { left. apply Hafter. exact (emits_load_cogs _ _ _ _ _ H1). }
  pose proof (emits_load_cogs _ _ _ _ _ H6) as Hacc6. clear H6.
  apply bind_cases in H as [(e & H1 & ->)|([] & s7 & H7 & H)].
  { left. apply Hafter.
    eapply grows_trans; [exact Hacc6|exact (emit_log_grows _ _ _ _ _ H1)]. }
  pose proof (grows_trans _ _ _ _ Hacc6 (emit_log_grows _ _ _ _ _ H7)) as Hacc7.
  clear Hacc6 H7.
  apply bind_cases in H as [(e & H1 & ->)|(debug & s8 & H8 & H)].
  { left. apply Hafter.
    eapply grows_trans; [exact Hacc7|exact (emits_environ_getitem is_log _ _ _ _ _ H1)]. }
  pose proof (grows_trans _ _ _ _ Hacc7 (emits_environ_getitem is_log _ _ _ _ _ H8)) as Hacc8.
  clear Hacc7 H8.
  apply bind_cases in H as [(e & H1 & ->)|([] & s9 & H9 & H)].
  { left. apply Hafter.
    eapply grows_trans; [exact Hacc8|exact (emit_log_grows _ _ _ _ _ H1)]. }
  pose proof (grows_trans _ _ _ _ Hacc8 (emit_log_grows _ _ _ _ _ H9)) as Hacc9.
  clear Hacc8 H9.
  apply bind_cases in H as [(e & H1 & ->)|(token & s10 & H10 & H)].
  { left. apply Hafter.
    eapply grows_trans; [exact Hacc9|exact (emits_getattr _ _ _ _ _ _ _ H1)]. }
  pose proof (getattr_returned _ _ _ _ _ _ _ st H10) as Htoken.
  apply getattr_returned_state in H10 as ->.
  (* the connection *)
  right.
  destruct (grows_weaken _ _ _ _ log_not_run Hacc2) as (evsA & HA & HPA).
  destruct (grows_weaken _ _ _ _ log_not_run Hacc9) as (evsC & HC & HPC).
  exists (evsA ++ DbInit :: evsC)%list, token.
  assert (st' = after (Run token) s9 /\
          r = match main.gateway w with None => Returned tt | Some e => Raised e end)
    as [-> ->].
  { unfold main.run in H. rewrite run_bind, run_emit in H.
    destruct (main.gateway w); by injection H as <- <-. }
  repeat split.
  - simpl. rewrite HC. simpl. rewrite HA, <- !app_assoc. reflexivity.
  - rewrite forallb_app. simpl. by rewrite HPA, HPC.
  - apply elem_of_app. right. constructor.
  - by exists m, s1.
Qed.

Lemma script_connects_last_ok :
  let st' := mkState {[ "roycemorebot.exts.utils" := ["Utils"] ]} ["Utils"]
    [Log WARNING
       "Using the not-so-fast default asyncio event loop. Consider installing uvloop.";
     DbInit; Log INFO "Cog loaded: Utils"; Log INFO "Debug: True";
     Log TRACE "Debug env variable: 1"; Run (JStr "abc123")] in
  grows not_run Fixtures.initial st' \/
  exists pre token,
    trace st' = (trace Fixtures.initial ++ pre ++ [Run token])%list /\
    forallb not_run pre = true /\
    DbInit ∈ pre /\
    (exists m st1,
       constants.import (main.fs Fixtures.world_ok) (main.environ Fixtures.world_ok)
         Fixtures.initial = (st1, Returned m) /\
       constants.__getattr__ (constants.CONFIG_JSON m) (main.environ Fixtures.world_ok)
         constants.Bot "bot_token" Fixtures.initial = (Fixtures.initial, Returned token)) /\
    Returned tt =
      match main.gateway Fixtures.world_ok with None => Returned tt | Some e => Raised e end.
Proof.
  intros st'.
  apply (script_connects_last Fixtures.no_signal Fixtures.world_ok Fixtures.initial st'
           (Returned tt)).
  reflexivity.
Defined.

(* ===================================================================== *)
(** * The [ping] command *)
(* ===================================================================== *)

Lemma float_le_mono x (b b' : Z) :
  (b <= b')%Z -> status.float_le x b = true -> status.float_le x b' = true.
Proof.
  intros Hb. destruct x as [q| | |]; simpl; try done.
  intros Hq%Qle_bool_iff. apply Qle_bool_iff.
  eapply Qle_trans; [exact Hq|]. unfold Qle. simpl. lia.
Qed.

Lemma float_le_worse x y (b : Z) :
  status.float_le (status.Finite (worse x y)) b =
  status.float_le (status.Finite x) b && status.float_le (status.Finite y) b.
Proof.
  unfold worse. simpl.
  destruct (Qle_bool x y) eqn:Hxy.
  - apply Qle_bool_iff in Hxy.
    destruct (Qle_bool y (inject_Z b)) eqn:Hy; [|by rewrite andb_false_r].
    apply Qle_bool_iff in Hy. rewrite andb_true_r. symmetry.
    apply Qle_bool_iff. by eapply Qle_trans.
  - assert (y <= x)%Q as Hyx.
    { apply Qlt_le_weak, Qnot_le_lt. intros Hle.
      apply Qle_bool_iff in Hle. congruence. }
    destruct (Qle_bool x (inject_Z b)) eqn:Hx; [|reflexivity].
    apply Qle_bool_iff in Hx. simpl. symmetry.
    apply Qle_bool_iff. by eapply Qle_trans.
Qed.

(** X23. The colour of the embed is decided by the worse of the two
    latencies alone: two latencies that are numbers give the colour that
    the larger of them would give on both sides. *)
Theorem ping_colour_worse fixed3 x y :
  status.embed_colour (status.ping fixed3 (status.Finite x) (status.Finite y)) =
  status.embed_colour
    (status.ping fixed3 (status.Finite (worse x y)) (status.Finite (worse x y))).
Proof.
  unfold status.ping. cbn [status.embed_colour].
  rewrite !float_le_worse, !andb_diag. reflexivity.
Qed.

(** X24. The embed is green exactly when both latencies are at most 100 ms
    and red exactly when one of them is not at most 250 ms, which
    includes a latency that is infinite or not a number; the title and
    the names of the two fields never change. *)
Theorem ping_colour fixed3 x y :
  let e := status.ping fixed3 x y in
  (status.embed_colour e = status.green <->
   status.float_le x 100 = true /\ status.float_le y 100 = true) /\
  (status.embed_colour e = status.red <->
   status.float_le x 250 = false \/ status.float_le y 250 = false) /\
  status.title e = "Pong!" /\
  (status.fields e).*1.*1 = ["Bot latency:"; "Discord API Latency:"].
Proof.
  unfold status.ping. cbn [status.embed_colour status.title status.fields].
  pose proof (float_le_mono x 100 250 ltac:(lia)) as Hx.
  pose proof (float_le_mono y 100 250 ltac:(lia)) as Hy.
  destruct (status.float_le x 100) eqn:Hx1, (status.float_le y 100) eqn:Hy1;
    destruct (status.float_le x 250) eqn:Hx2, (status.float_le y 250) eqn:Hy2;
    simpl; repeat split; try done; try (intros [? ?]; done);
    try (intros [?|?]; done); try (by left); try (by right);
    try (specialize (Hx eq_refl); done); try (specialize (Hy eq_refl); done).
Qed.

Lemma ping_colour_no_heartbeat :
  let e := status.ping Fixtures.show_float (status.Finite (42 # 1)) status.PosInf in
  (status.embed_colour e = status.green <->
   status.float_le (status.Finite (42 # 1)) 100 = true /\
   status.float_le status.PosInf 100 = true) /\
  (status.embed_colour e = status.red <->
   status.float_le (status.Finite (42 # 1)) 250 = false \/
   status.float_le status.PosInf 250 = false) /\
  status.title e = "Pong!" /\
  (status.fields e).*1.*1 = ["Bot latency:"; "Discord API Latency:"].
Proof. exact (ping_colour Fixtures.show_float (status.Finite (42 # 1)) status.PosInf). Defined.
